(** * stepfun_chat: the scripted chat run of [step_fun.py]

    A shallow embedding of [chat_with_stepfun_ai], [wait_for_ai_response]
    and [get_ai_response].  Python strings are sequences of Unicode code
    points; every awaited Playwright call is an effect whose outcome (a value
    or a raised exception) is supplied by an environment and whose occurrence
    is recorded in a trace. *)

From Stdlib Require Import List NArith ZArith Bool Lia.
From Stdlib Require Import Strings.String Strings.Ascii.
Import ListNotations.

Set Implicit Arguments.

(** ** Python strings *)

Module PyStr.

(** A [str] is a sequence of code points. *)
Definition char := N.
Definition pystr := list char.

Definition eqb (a b : pystr) : bool :=
  if list_eq_dec N.eq_dec a b then true else false.

(** Literals are written as in the source file (UTF-8) and decoded. *)
Fixpoint utf8_decode (bs : list N) : pystr :=
  match bs with
  | [] => []
  | b0 :: r0 =>
      if (b0 <? 128)%N then b0 :: utf8_decode r0
      else
        match r0 with
        | [] => []
        | b1 :: r1 =>
            if (b0 <? 224)%N then
              ((b0 - 192) * 64 + (b1 - 128))%N :: utf8_decode r1
            else
              match r1 with
              | [] => []
              | b2 :: r2 =>
                  if (b0 <? 240)%N then
                    ((b0 - 224) * 4096 + (b1 - 128) * 64 + (b2 - 128))%N
                      :: utf8_decode r2
                  else
                    match r2 with
                    | [] => []
                    | b3 :: r3 =>
                        ((b0 - 240) * 262144 + (b1 - 128) * 4096
                         + (b2 - 128) * 64 + (b3 - 128))%N
                          :: utf8_decode r3
                    end
              end
        end
  end.

Definition lit (s : string) : pystr :=
  utf8_decode (map N_of_ascii (list_ascii_of_string s)).

(** [str.isspace] on one code point: the whitespace set of CPython. *)
Definition isspace (c : char) : bool :=
  ((9 <=? c) && (c <=? 13) || (28 <=? c) && (c <=? 32)
   || (c =? 133) || (c =? 160) || (c =? 5760)
   || (8192 <=? c) && (c <=? 8202)
   || (c =? 8232) || (c =? 8233) || (c =? 8239) || (c =? 8287)
   || (c =? 12288))%N.

Fixpoint lstrip (s : pystr) : pystr :=
  match s with
  | [] => []
  | c :: t => if isspace c then lstrip t else s
  end.

Definition rstrip (s : pystr) : pystr := rev (lstrip (rev s)).

(** [s.strip()] *)
Definition strip (s : pystr) : pystr := rstrip (lstrip s).

Fixpoint startswith (s pre : pystr) {struct pre} : bool :=
  match pre, s with
  | [], _ => true
  | _ :: _, [] => false
  | a :: p, b :: t => (a =? b)%N && startswith t p
  end.

(** [sub in s] *)
Fixpoint contains (sub s : pystr) : bool :=
  startswith s sub ||
  match s with
  | [] => false
  | _ :: t => contains sub t
  end.

(** truthiness of a string: [if s] *)
Definition truthy (s : pystr) : bool :=
  match s with [] => false | _ :: _ => true end.

(** [xs[lo:hi]] for integer bounds, with Python's treatment of negative and
    out-of-range bounds. *)
Definition slice_bound (len k : Z) : Z :=
  if (k <? 0)%Z then Z.max 0 (k + len) else Z.min k len.

Definition slice {A : Type} (xs : list A) (lo hi : Z) : list A :=
  let len := Z.of_nat (List.length xs) in
  let a := slice_bound len lo in
  let b := slice_bound len hi in
  firstn (Z.to_nat (b - a)) (skipn (Z.to_nat a) xs).

Arguments lit s%_string.

End PyStr.

Import PyStr.

(** ** Exceptions, calls and traces *)

(** The exceptions a run can meet; all of them derive from [Exception]. *)
Inductive exn : Type :=
| Exception (msg : pystr)         (* raise Exception(msg) *)
| TypeError                       (* [sub in None] *)
| PlaywrightError (msg : pystr)   (* raised by an awaited Playwright call *)
| OSError.                        (* [os.makedirs] *)

Inductive result (A : Type) : Type :=
| Ok (a : A)
| Raise (e : exn).
Arguments Ok {A} a.
Arguments Raise {A} e.

Inductive tag : Type := TInput | TTextarea | TButton | TOther.

Definition tag_eqb (a b : tag) : bool :=
  match a, b with
  | TInput, TInput | TTextarea, TTextarea | TButton, TButton
  | TOther, TOther => true
  | _, _ => false
  end.

(** An element of the document, with what its handle answers when asked. *)
Record Element : Type := {
  el_id : nat;
  el_tag : tag;
  el_contenteditable : option pystr;
  el_text_content : result (option pystr);
  el_click : result unit;
  el_fill : result unit
}.

(** The selectors of the source. *)
Inductive selector : Type :=
| ByTag (t : tag)
| ByContentEditable (v : pystr)
| Union (a b : selector)
| HasText (a : selector) (text : pystr).

(** One [logger] call of the source. *)
Inductive log_record : Type :=
| LogStart | LogVisiting | LogModeClicked
| LogFoundInputs (n : nat)
| LogTextEntered | LogChatClicked
| LogThinking | LogReplyDone
| LogReceiving (second : nat)
| LogPollError (e : exn)
| LogTimeout
| LogReadError (e : exn).

Inductive event : Type :=
| EvMakedirs
| EvPlaywrightStart | EvPlaywrightStop
| EvLaunch | EvNewContext | EvNewPage
| EvGoto | EvWaitForLoadState
| EvQuerySelector (s : selector)
| EvQuerySelectorAll (s : selector)
| EvClick (id : nat)
| EvFill (id : nat) (text : pystr)
| EvTextContent (id : nat)
| EvWaitForTimeout (ms : nat)
| EvLocatorTextContent
| EvBrowserClose
| EvLog (l : log_record).

(** A computation: the calls it made, in order, and how it ended. *)
Definition M (A : Type) : Type := (list event * result A)%type.

Definition events {A} (m : M A) : list event := fst m.
Definition outcome {A} (m : M A) : result A := snd m.

Definition ret {A} (a : A) : M A := ([], Ok a).
Definition raise {A} (e : exn) : M A := ([], Raise e).

Definition bind {A B} (m : M A) (k : A -> M B) : M B :=
  match m with
  | (t, Ok a) => let (t', r) := k a in (t ++ t', r)
  | (t, Raise e) => (t, Raise e)
  end.

(** An awaited call with the answer [r] of the environment. *)
Definition call {A} (ev : event) (r : result A) : M A := ([ev], r).

Definition log (l : log_record) : M unit := ([EvLog l], Ok tt).

(** [try: body except Exception as e: handler e] *)
Definition try_except {A} (body : M A) (handler : exn -> M A) : M A :=
  match body with
  | (t, Ok a) => (t, Ok a)
  | (t, Raise e) => let (t', r) := handler e in (t ++ t', r)
  end.

(** [try: body finally: fin]; an exception of [fin] replaces the outcome. *)
Definition try_finally {A} (body : M A) (fin : M unit) : M A :=
  let (t, r) := body in
  let (t', rf) := fin in
  (t ++ t', match rf with Ok _ => r | Raise e => Raise e end).

Declare Scope py_scope.
Delimit Scope py_scope with py.
Notation "x <- m ;; k" := (bind m (fun x => k))
  (at level 100, m at next level, right associativity) : py_scope.
Notation "m ;; k" := (bind m (fun _ => k))
  (at level 100, right associativity) : py_scope.
Open Scope py_scope.

(** ** The environment of one run *)

(** What the page answers during one tick of the polling loop. *)
Record Tick : Type := {
  tk_wait : result unit;                 (* page.wait_for_timeout(1000) *)
  tk_text : result (option pystr)        (* locator(...).first.text_content() *)
}.

Definition Page : Type := nat -> Tick.

Record Env : Type := {
  env_makedirs : result unit;
  env_playwright : result unit;
  env_launch : result unit;
  env_new_context : result unit;
  env_new_page : result unit;
  env_goto : result unit;
  env_load_state : result unit;
  env_mode_button : result (option Element);
  env_dom_inputs : result (list Element);   (* document when inputs are queried *)
  env_dom_buttons : result (list Element);  (* document when buttons are queried *)
  env_page : Page;
  env_close : result unit;
  env_stop : result unit
}.

(** ** Constants of the source *)

Definition marker_web : pystr := lit "联网".
Definition marker_video : pystr := lit "视频创作".
Definition marker_thinking : pystr := lit "与 DeepSeek R1 生成".
Definition msg_timeout : pystr := lit "回复超时，未获取到完整回复".
Definition msg_no_input : pystr := lit "未找到输入框".
Definition msg_no_target : pystr := lit "未找到目标按钮".
Definition msg_no_chat : pystr := lit "未找到聊天按钮".

Definition sel_mode : selector := HasText (ByTag TButton) (lit "推理").
Definition sel_inputs : selector :=
  Union (ByTag TInput)
        (Union (ByTag TTextarea) (ByContentEditable (lit "true"))).
Definition sel_button : selector := ByTag TButton.

Definition max_ticks : nat := 1800.

(** ** Handles and queries *)

Fixpoint matches (s : selector) (el : Element) : bool :=
  match s with
  | ByTag t => tag_eqb (el_tag el) t
  | ByContentEditable v =>
      match el_contenteditable el with
      | Some w => eqb w v
      | None => false
      end
  | Union a b => matches a el || matches b el
  | HasText a text =>
      matches a el &&
      match el_text_content el with
      | Ok (Some w) => contains text w
      | _ => false
      end
  end.

(** [page.query_selector_all(s)]: the matching elements in document order. *)
Definition query_selector_all (s : selector) (dom : result (list Element))
  : M (list Element) :=
  d <- call (EvQuerySelectorAll s) dom ;;
  ret (filter (matches s) d).

Definition click (el : Element) : M unit :=
  call (EvClick (el_id el)) (el_click el).

Definition fill (el : Element) (text : pystr) : M unit :=
  call (EvFill (el_id el) text) (el_fill el).

Definition text_content (el : Element) : M (option pystr) :=
  call (EvTextContent (el_id el)) (el_text_content el).

(** [sub in text] where [text] may be [None]. *)
Definition py_in (sub : pystr) (text : option pystr) : M bool :=
  match text with
  | Some s => ret (contains sub s)
  | None => raise TypeError
  end.

(** ** [get_ai_response] *)

Definition get_ai_response (page : Page) (i : nat) : M pystr :=
  try_except
    (response_text <- call EvLocatorTextContent (tk_text (page i)) ;;
     ret (match response_text with
          | Some s => if truthy s then s else []
          | None => []
          end))
    (fun e => log (LogReadError e) ;; ret []).

(** ** [wait_for_ai_response] *)

(** How one iteration of the [for] loop ends: by [return], or by reaching
    the next iteration ([continue] or the end of the body) with the value of
    [prev_response]. *)
Inductive flow : Type :=
| Return (response : pystr)
| Next (prev_response : pystr).

Definition loop_body (page : Page) (i : nat) (prev_response : pystr)
  : M flow :=
  call (EvWaitForTimeout 1000) (tk_wait (page i)) ;;
  try_except
    (response <- get_ai_response page i ;;
     if contains marker_thinking response then
       log LogThinking ;; ret (Next prev_response)
     else if (0 <? List.length (strip prev_response))%nat
             && eqb (strip prev_response) (strip response) then
       log LogReplyDone ;; ret (Return response)
     else
       log (LogReceiving (i + 1)) ;; ret (Next response))
    (fun e => log (LogPollError e) ;; ret (Next prev_response)).

(** [n] iterations are left, the next one has index [i]. *)
Fixpoint poll (page : Page) (n i : nat) (prev_response : pystr) : M pystr :=
  match n with
  | O =>
      log LogTimeout ;;
      ret (if truthy prev_response then prev_response else msg_timeout)
  | S n' =>
      f <- loop_body page i prev_response ;;
      match f with
      | Return response => ret response
      | Next prev_response' => poll page n' (S i) prev_response'
      end
  end.

Definition wait_for_ai_response (page : Page) : M pystr :=
  poll page max_ticks 0 [].

(** ** [chat_with_stepfun_ai] *)

(** The [for i, button in enumerate(buttons)] loop. *)
Fixpoint scan_buttons (buttons : list Element) (i : Z)
         (web_search_index stepfun_video_index : Z) : M (Z * Z) :=
  match buttons with
  | [] => ret (web_search_index, stepfun_video_index)
  | button :: rest =>
      text <- text_content button ;;
      is_web <- py_in marker_web text ;;
      if is_web then scan_buttons rest (i + 1) i stepfun_video_index
      else
        is_video <- py_in marker_video text ;;
        if is_video then scan_buttons rest (i + 1) web_search_index i
        else scan_buttons rest (i + 1) web_search_index stepfun_video_index
  end.

(** The body of the [try] statement, in the order of the source: open the
    page and click the optional mode button, *)
Definition navigate (env : Env) : M unit :=
  log LogVisiting ;;
  call EvGoto (env_goto env) ;;
  call EvWaitForLoadState (env_load_state env) ;;
  deepseek_button <- call (EvQuerySelector sel_mode) (env_mode_button env) ;;
  match deepseek_button with
  | Some b => click b ;; log LogModeClicked
  | None => ret tt
  end.

(** find the input field and type the query, *)
Definition enter_query (env : Env) (input_text : pystr) : M unit :=
  input_fields <- query_selector_all sel_inputs (env_dom_inputs env) ;;
  log (LogFoundInputs (List.length input_fields)) ;;
  match input_fields with
  | [] => raise (Exception msg_no_input)
  | input_field :: _ =>
      fill input_field input_text ;;
      log LogTextEntered
  end.

(** enumerate the buttons, *)
Definition find_buttons (env : Env) : M (list Element) :=
  query_selector_all sel_button (env_dom_buttons env).

(** click the button between the two markers, *)
Definition submit (buttons : list Element) : M unit :=
  idx <- scan_buttons buttons 0 (-1) (-1) ;;
  let (web_search_index, stepfun_video_index) := idx in
  if (web_search_index =? -1)%Z || (stepfun_video_index =? -1)%Z then
    raise (Exception msg_no_target)
  else
    let middle_buttons :=
      slice buttons (web_search_index + 1) stepfun_video_index in
    match middle_buttons with
    | [] => raise (Exception msg_no_chat)
    | middle_button :: _ =>
        click middle_button ;;
        log LogChatClicked
    end.

(** and wait for the reply. *)
Definition session (env : Env) (input_text : pystr) : M pystr :=
  navigate env ;;
  enter_query env input_text ;;
  buttons <- find_buttons env ;;
  submit buttons ;;
  wait_for_ai_response (env_page env).

Definition chat_with_stepfun_ai (env : Env) (input_text : pystr) : M pystr :=
  log LogStart ;;
  call EvMakedirs (env_makedirs env) ;;
  call EvPlaywrightStart (env_playwright env) ;;
  try_finally
    (call EvLaunch (env_launch env) ;;
     call EvNewContext (env_new_context env) ;;
     call EvNewPage (env_new_page env) ;;
     try_finally
       (session env input_text)
       (call EvBrowserClose (env_close env)))
    (call EvPlaywrightStop (env_stop env)).

(** The three [raise Exception(...)] of the run: a required control is
    missing.  *)
Definition ControlNotFoundError (e : exn) : bool :=
  match e with
  | Exception msg =>
      eqb msg msg_no_input || eqb msg msg_no_target || eqb msg msg_no_chat
  | _ => false
  end.

(** ** Vocabulary of the properties *)

(** The text a tick reads, and whether the tick is skipped. *)
Definition read (page : Page) (i : nat) : pystr :=
  match tk_text (page i) with
  | Ok (Some s) => s
  | _ => []
  end.

Definition skipped (page : Page) (i : nat) : bool :=
  contains marker_thinking (read page i).

(** What one tick does with the text it read. *)
Definition decide (prev_response response : pystr) : flow :=
  if contains marker_thinking response then Next prev_response
  else if (0 <? List.length (strip prev_response))%nat
          && eqb (strip prev_response) (strip response)
       then Return response
       else Next response.

(** The value of [prev_response] after [k] iterations that start at index
    [i] with [prev]; [None] when one of them returned or raised. *)
Fixpoint stored_after (page : Page) (k i : nat) (prev : pystr)
  : option pystr :=
  match k with
  | O => Some prev
  | S k' =>
      match outcome (loop_body page i prev) with
      | Ok (Next prev') => stored_after page k' (S i) prev'
      | _ => None
      end
  end.

(** The value of [prev_response] when iteration [i] of a run begins. *)
Definition stored_at (page : Page) (i : nat) : option pystr :=
  stored_after page i 0 [].

(** The texts stored by the first [n] ticks when all of them take place:
    those of the ticks that are not skipped. *)
Definition observations (page : Page) (n : nat) : list pystr :=
  map (read page) (filter (fun i => negb (skipped page i)) (seq 0 n)).

Definition last_stored (page : Page) (n : nat) : pystr :=
  last (observations page n) [].

(** The number of ticks a computation went through. *)
Definition is_tick (e : event) : bool :=
  match e with
  | EvWaitForTimeout _ => true
  | _ => false
  end.

Definition ticks_taken {A} (m : M A) : nat :=
  List.length (filter is_tick (events m)).

(** A text-input-capable element: a native input, a text area or an
    editable region. *)
Definition text_input_capable (el : Element) : bool :=
  match el_tag el with
  | TInput | TTextarea => true
  | _ =>
      match el_contenteditable el with
      | Some v => eqb v (lit "true")
      | None => false
      end
  end.

(** Whether the text of a button contains a marker. *)
Definition text_has (marker : pystr) (button : Element) : bool :=
  match el_text_content button with
  | Ok (Some s) => contains marker s
  | _ => false
  end.

Definition has_text (button : Element) : Prop :=
  exists s, el_text_content button = Ok (Some s).

(** [k] is the index of the last element of [l] that satisfies [f], and [-1]
    when there is none. *)
Definition last_index_of (f : Element -> bool) (l : list Element) (k : Z)
  : Prop :=
  (k = (-1)%Z /\ forall b, In b l -> f b = false) \/
  (exists n b, k = Z.of_nat n /\ nth_error l n = Some b /\ f b = true /\
     forall m b', (n < m)%nat -> nth_error l m = Some b' -> f b' = false).

(** The browser, its context and its page were obtained. *)
Definition acquired (env : Env) : Prop :=
  env_makedirs env = Ok tt /\ env_playwright env = Ok tt /\
  env_launch env = Ok tt /\ env_new_context env = Ok tt /\
  env_new_page env = Ok tt.

(** What precedes the [try] statement. *)
Definition acquisition : list event :=
  [EvLog LogStart; EvMakedirs; EvPlaywrightStart;
   EvLaunch; EvNewContext; EvNewPage].

(** The browser and Playwright shut down without an error. *)
Definition released (env : Env) : Prop :=
  env_close env = Ok tt /\ env_stop env = Ok tt.

(** The calls of the polling loop. *)
Definition is_poll (e : event) : bool :=
  match e with
  | EvWaitForTimeout _ | EvLocatorTextContent => true
  | _ => false
  end.

(** A trace without any call of the polling loop. *)
Definition quiet (t : list event) : bool :=
  forallb (fun e => negb (is_poll e)) t.

(** The two tests of the scan, on a button. *)
Definition is_web (button : Element) : bool := text_has marker_web button.

Definition is_video (button : Element) : bool :=
  negb (text_has marker_web button) && text_has marker_video button.

(** The indices the scan holds after the buttons [l], the first of which has
    index [i], when every text could be read. *)
Fixpoint scan_indices (l : list Element) (i w v : Z) : Z * Z :=
  match l with
  | [] => (w, v)
  | b :: rest =>
      if is_web b then scan_indices rest (i + 1) i v
      else if is_video b then scan_indices rest (i + 1) w i
           else scan_indices rest (i + 1) w v
  end.

(** [last_index_of] for a list whose first index is [i] and a scan that
    starts from [d]. *)
Definition last_from (f : Element -> bool) (l : list Element) (i d k : Z)
  : Prop :=
  (k = d /\ forall b, In b l -> f b = false) \/
  (exists n b, k = (i + Z.of_nat n)%Z /\ nth_error l n = Some b /\
     f b = true /\
     forall m b', (n < m)%nat -> nth_error l m = Some b' -> f b' = false).

(** The [logger] call that goes with each decision. *)
Definition decide_log (i : nat) (prev_response response : pystr)
  : log_record :=
  match decide prev_response response with
  | Return _ => LogReplyDone
  | Next _ =>
      if contains marker_thinking response then LogThinking
      else LogReceiving (i + 1)
  end.

(** ** Sample pages *)

Module Samples.

Definition tick_text (s : pystr) : Tick :=
  {| tk_wait := Ok tt; tk_text := Ok (Some s) |}.

Definition tick_error : Tick :=
  {| tk_wait := Ok tt;
     tk_text := Raise (PlaywrightError (lit "Timeout 30000ms exceeded")) |}.

Definition script (ticks : list Tick) (rest : Tick) : Page :=
  fun i => nth i ticks rest.

(** Empty, then the interim banner, then the same reply twice. *)
Definition page_partial : Page :=
  script [tick_text []; tick_text (lit "思考中 与 DeepSeek R1 生成");
          tick_text (lit "partial"); tick_text (lit " partial ")]
         (tick_text (lit "later")).

(** A text that changes on every tick. *)
Definition page_counting : Page :=
  fun i => tick_text [(65 + N.of_nat i)%N].

(** One reply, then nothing but empty texts. *)
Definition page_vanishing : Page :=
  fun i => match i with O => tick_text (lit "a") | _ => tick_text [] end.

(** Two texts in alternation; the odd ticks read "a". *)
Definition page_alternating : Page :=
  fun i => if Nat.even i then tick_text (lit "b") else tick_text (lit "a").

Definition page_constant : Page := fun _ => tick_text (lit "a").

(** A failed read between two equal texts. *)
Definition page_glitch : Page :=
  script [tick_text (lit "partial"); tick_error; tick_text (lit "partial")]
         (tick_text (lit "partial")).

(** A document and the environment of a run in which every call succeeds. *)
Definition element (id : nat) (t : tag) (text : pystr) : Element :=
  {| el_id := id; el_tag := t; el_contenteditable := None;
     el_text_content := Ok (Some text);
     el_click := Ok tt; el_fill := Ok tt |}.

Definition dom_chat : list Element :=
  [element 0 TOther (lit "阶跃AI"); element 1 TButton (lit "推理");
   element 2 TTextarea []; element 3 TInput [];
   element 4 TButton (lit "联网"); element 5 TButton [];
   element 6 TButton (lit "视频创作")].

(** The same document without the right-hand marker, *)
Definition dom_no_video : list Element :=
  [element 2 TTextarea []; element 4 TButton (lit "联网");
   element 5 TButton []].

(** with the two markers next to each other, *)
Definition dom_adjacent : list Element :=
  [element 2 TTextarea []; element 4 TButton (lit "联网");
   element 6 TButton (lit "视频创作")].

(** and without any input field. *)
Definition dom_no_input : list Element :=
  [element 0 TOther (lit "阶跃AI"); element 4 TButton (lit "联网")].

(** Buttons whose texts repeat and mix the two markers. *)
Definition buttons_mixed : list Element :=
  [element 0 TButton (lit "视频创作"); element 1 TButton (lit "联网");
   element 2 TButton (lit "发送"); element 3 TButton (lit "联网搜索");
   element 4 TButton (lit "视频创作 新");
   element 5 TButton (lit "联网 视频创作")].

Definition env_of (dom : list Element) (page : Page) : Env :=
  {| env_makedirs := Ok tt; env_playwright := Ok tt; env_launch := Ok tt;
     env_new_context := Ok tt; env_new_page := Ok tt;
     env_goto := Ok tt; env_load_state := Ok tt;
     env_mode_button := Ok None;
     env_dom_inputs := Ok dom; env_dom_buttons := Ok dom;
     env_page := page;
     env_close := Ok tt; env_stop := Ok tt |}.

End Samples.


(** ** [main] *)

(** The query of the example run. *)
Definition sample_query : pystr :=
  lit "
    编写一个python排序代码
    ".

(** The [logger] calls of [main]. *)
Inductive main_log : Type :=
| LogReplyHeader
| LogReply (ai_response : pystr)
| LogChatError (e : exn).

Inductive main_event : Type :=
| Run (e : event)
| MainLog (l : main_log).

(** [main] catches every exception of the run and returns [None] then. *)
Definition main (env : Env) : list main_event * option pystr :=
  match chat_with_stepfun_ai env sample_query with
  | (t, Ok ai_response) =>
      (map Run t ++ [MainLog LogReplyHeader; MainLog (LogReply ai_response)],
       Some ai_response)
  | (t, Raise e) => (map Run t ++ [MainLog (LogChatError e)], None)
  end.

(** ** Vocabulary of the further properties *)

(** Everything the [try] body does before it polls. *)
Definition setup (env : Env) (input_text : pystr) : M unit :=
  navigate env ;;
  enter_query env input_text ;;
  buttons <- find_buttons env ;;
  submit buttons.

(** The number of reads of the response region. *)
Definition is_read (e : event) : bool :=
  match e with
  | EvLocatorTextContent => true
  | _ => false
  end.

Definition reads_taken {A} (m : M A) : nat :=
  List.length (filter is_read (events m)).

(** What the polling loop is allowed to do: wait, read the region, log. *)
Definition passive (e : event) : bool :=
  match e with
  | EvWaitForTimeout _ | EvLocatorTextContent | EvLog _ => true
  | _ => false
  end.

(** What the scan of the buttons does: read texts. *)
Definition is_text_read (e : event) : bool :=
  match e with
  | EvTextContent _ => true
  | _ => false
  end.

(** More pages and environments. *)
Module Cases.

(** The page goes away during the third wait. *)
Definition page_closing : Page :=
  fun i =>
    match i with
    | 0%nat => Samples.tick_text (lit "part")
    | 2%nat => {| tk_wait := Raise (PlaywrightError (lit "Target closed"));
                  tk_text := Ok (Some (lit "partial")) |}
    | _ => Samples.tick_text (lit "partial")
    end.

(** A reply, two interim banners, the same reply again. *)
Definition page_interrupted : Page :=
  Samples.script
    [Samples.tick_text (lit "done"); Samples.tick_text marker_thinking;
     Samples.tick_text marker_thinking; Samples.tick_text (lit "done ")]
    (Samples.tick_text (lit "later")).

(** Nothing but white space. *)
Definition page_blank : Page :=
  fun i => if Nat.even i then Samples.tick_text (lit "  ")
           else Samples.tick_text [].

(** Closing the browser fails. *)
Definition env_close_fails : Env :=
  {| env_makedirs := Ok tt; env_playwright := Ok tt; env_launch := Ok tt;
     env_new_context := Ok tt; env_new_page := Ok tt;
     env_goto := Ok tt; env_load_state := Ok tt;
     env_mode_button := Ok None;
     env_dom_inputs := Ok Samples.dom_chat;
     env_dom_buttons := Ok Samples.dom_chat;
     env_page := Samples.page_constant;
     env_close := Raise (PlaywrightError (lit "Browser closed"));
     env_stop := Ok tt |}.

(** The site cannot be reached. *)
Definition env_unreachable : Env :=
  {| env_makedirs := Ok tt; env_playwright := Ok tt; env_launch := Ok tt;
     env_new_context := Ok tt; env_new_page := Ok tt;
     env_goto := Raise (PlaywrightError (lit "net::ERR_NAME_NOT_RESOLVED"));
     env_load_state := Ok tt;
     env_mode_button := Ok None;
     env_dom_inputs := Ok Samples.dom_chat;
     env_dom_buttons := Ok Samples.dom_chat;
     env_page := Samples.page_constant;
     env_close := Ok tt; env_stop := Ok tt |}.

(** A button that has no text stands between two that have one. *)
Definition buttons_textless : list Element :=
  [Samples.element 1 TButton (lit "联网");
   {| el_id := 2; el_tag := TButton; el_contenteditable := None;
      el_text_content := Ok None; el_click := Ok tt; el_fill := Ok tt |};
   Samples.element 3 TButton (lit "视频创作")].

(** Two buttons carry the right-hand marker. *)
Definition buttons_two_videos : list Element :=
  [Samples.element 1 TButton (lit "联网");
   Samples.element 2 TButton (lit "视频创作");
   Samples.element 3 TButton (lit "视频创作")].

End Cases.

(** * Properties *)

Unset Implicit Arguments.

(** ** Strings *)

Lemma eqb_eq (a b : pystr) : eqb a b = true <-> a = b.
Proof.
  unfold eqb. destruct (list_eq_dec N.eq_dec a b); split; congruence.
Qed.

Lemma eqb_refl (a : pystr) : eqb a a = true.
Proof. now apply eqb_eq. Qed.

Lemma truthy_id (s : pystr) : (if truthy s then s else []) = s.
Proof. now destruct s. Qed.

Lemma nonempty_length (s : pystr) :
  (0 <? List.length s)%nat = true <-> s <> [].
Proof.
  destruct s; simpl; split; intro H; try congruence; try discriminate.
  reflexivity.
Qed.

Lemma startswith_spec (pre s : pystr) :
  startswith s pre = true <-> exists b, s = pre ++ b.
Proof.
  revert s. induction pre as [|a pre IH]; intros s; simpl.
  - split; [exists s; reflexivity | reflexivity].
  - destruct s as [|c s].
    + split; [discriminate | intros [b Hb]; discriminate].
    + rewrite andb_true_iff, N.eqb_eq, IH. split.
      * intros [-> [b ->]]. now exists b.
      * intros [b Hb]. injection Hb as -> ->. split; [reflexivity | now exists b].
Qed.

(** [contains] is Python's substring test. *)
Lemma contains_spec (sub s : pystr) :
  contains sub s = true <-> exists a b, s = a ++ sub ++ b.
Proof.
  induction s as [|c s IH].
  - simpl. rewrite orb_false_r, startswith_spec. split.
    + intros [b Hb]. now exists [], b.
    + intros [a [b Hab]]. destruct a; [now exists b | discriminate].
  - cbn [contains]. rewrite orb_true_iff, startswith_spec, IH. split.
    + intros [[b Hb] | [a [b Hab]]].
      * now exists [], b.
      * exists (c :: a), b. simpl. now rewrite Hab.
    + intros [a [b Hab]]. destruct a as [|x a].
      * left. now exists b.
      * right. injection Hab as _ Hab. now exists a, b.
Qed.

(** The literals of the source, as code points. *)
Example marker_web_code_points : marker_web = [32852; 32593]%N.
Proof. reflexivity. Qed.

Example marker_thinking_code_points :
  marker_thinking
  = [19982; 32; 68; 101; 101; 112; 83; 101; 101; 107; 32; 82; 49; 32;
     29983; 25104]%N.
Proof. reflexivity. Qed.

(** [strip] removes Unicode white space at both ends only. *)
Example strip_both_ends :
  strip (lit "　 partial reply
") = lit "partial reply".
Proof. reflexivity. Qed.

(** ** Computations *)

Lemma events_bind_ok {A B} (m : M A) (k : A -> M B) (a : A) :
  outcome m = Ok a -> events (bind m k) = events m ++ events (k a).
Proof.
  destruct m as [t r]. simpl. intros ->. simpl. now destruct (k a).
Qed.

Lemma outcome_bind_ok {A B} (m : M A) (k : A -> M B) (a : A) :
  outcome m = Ok a -> outcome (bind m k) = outcome (k a).
Proof.
  destruct m as [t r]. simpl. intros ->. simpl. now destruct (k a).
Qed.

Lemma events_bind_raise {A B} (m : M A) (k : A -> M B) (e : exn) :
  outcome m = Raise e -> events (bind m k) = events m.
Proof. destruct m as [t r]. simpl. now intros ->. Qed.

Lemma outcome_bind_raise {A B} (m : M A) (k : A -> M B) (e : exn) :
  outcome m = Raise e -> outcome (bind m k) = Raise e.
Proof. destruct m as [t r]. simpl. now intros ->. Qed.

Lemma events_try_finally {A} (body : M A) (fin : M unit) :
  events (try_finally body fin) = events body ++ events fin.
Proof. destruct body, fin. reflexivity. Qed.

Lemma outcome_try_finally {A} (body : M A) (fin : M unit) :
  outcome (try_finally body fin) =
  match outcome fin with
  | Ok _ => outcome body
  | Raise e => Raise e
  end.
Proof. destruct body, fin. reflexivity. Qed.

Lemma surjective_M {A} (m : M A) : m = (events m, outcome m).
Proof. now destruct m. Qed.

(** ** One tick *)

Lemma get_ai_response_eq (page : Page) (i : nat) :
  get_ai_response page i =
  (EvLocatorTextContent ::
     match tk_text (page i) with
     | Raise e => [EvLog (LogReadError e)]
     | Ok _ => []
     end,
   Ok (read page i)).
Proof.
  unfold get_ai_response, read.
  destruct (tk_text (page i)) as [[s|]|e]; simpl; try reflexivity.
  now rewrite truthy_id.
Qed.

Lemma loop_body_raise (page : Page) (i : nat) (prev : pystr) (e : exn) :
  tk_wait (page i) = Raise e ->
  loop_body page i prev = ([EvWaitForTimeout 1000], Raise e).
Proof. unfold loop_body, call. now intros ->. Qed.

Lemma loop_body_eq (page : Page) (i : nat) (prev : pystr) :
  tk_wait (page i) = Ok tt ->
  loop_body page i prev =
  (EvWaitForTimeout 1000 :: events (get_ai_response page i)
     ++ [EvLog (decide_log i prev (read page i))],
   Ok (decide prev (read page i))).
Proof.
  intros Hw. unfold loop_body, call. rewrite Hw.
  rewrite get_ai_response_eq. unfold decide_log, decide.
  cbn [bind try_except events fst].
  destruct (contains marker_thinking (read page i)); simpl.
  - reflexivity.
  - destruct ((0 <? List.length (strip prev))%nat
              && eqb (strip prev) (strip (read page i))); reflexivity.
Qed.

Lemma loop_body_ticks (page : Page) (i : nat) (prev : pystr) :
  ticks_taken (loop_body page i prev) = 1%nat.
Proof.
  unfold ticks_taken.
  destruct (tk_wait (page i)) as [[]|e] eqn:Hw.
  - rewrite (loop_body_eq _ _ _ Hw), get_ai_response_eq. simpl.
    rewrite filter_app. simpl.
    now destruct (tk_text (page i)).
  - now rewrite (loop_body_raise _ _ _ _ Hw).
Qed.

Lemma loop_body_outcome (page : Page) (i : nat) (prev : pystr) (f : flow) :
  outcome (loop_body page i prev) = Ok f ->
  tk_wait (page i) = Ok tt /\ f = decide prev (read page i).
Proof.
  destruct (tk_wait (page i)) as [[]|e] eqn:Hw.
  - rewrite (loop_body_eq _ _ _ Hw). simpl. intros [= <-]. now split.
  - rewrite (loop_body_raise _ _ _ _ Hw). discriminate.
Qed.

Lemma decide_next (prev response prev' : pystr) :
  decide prev response = Next prev' ->
  (contains marker_thinking response = true /\ prev' = prev) \/
  (contains marker_thinking response = false /\ prev' = response).
Proof.
  unfold decide. destruct (contains marker_thinking response).
  - intros [= <-]. now left.
  - destruct (_ && _); [discriminate | intros [= <-]; now right].
Qed.

Lemma loop_body_next_quiet (page : Page) (i : nat) (prev prev' : pystr) :
  outcome (loop_body page i prev) = Ok (Next prev') ->
  ~ In (EvLog LogReplyDone) (events (loop_body page i prev)).
Proof.
  intros H. destruct (loop_body_outcome _ _ _ _ H) as [Hw Hd].
  rewrite (loop_body_eq _ _ _ Hw), get_ai_response_eq.
  unfold decide_log. rewrite <- Hd. cbn [events fst].
  intros [Hin | [Hin | Hin]]; try discriminate.
  apply in_app_or in Hin as [Hin | [Hin | []]].
  - destruct (tk_text (page i)); [destruct Hin|].
    now destruct Hin as [Hin | []].
  - now destruct (contains marker_thinking (read page i)).
Qed.

(** ** The loop *)

Section Polling.

Variable page : Page.

Lemma poll_next (n i : nat) (prev prev' : pystr) :
  outcome (loop_body page i prev) = Ok (Next prev') ->
  poll page (S n) i prev =
  (events (loop_body page i prev) ++ events (poll page n (S i) prev'),
   outcome (poll page n (S i) prev')).
Proof.
  intros H. cbn [poll]. rewrite (surjective_M (bind _ _)).
  now rewrite (events_bind_ok _ _ _ H), (outcome_bind_ok _ _ _ H).
Qed.

Lemma poll_return (n i : nat) (prev response : pystr) :
  outcome (loop_body page i prev) = Ok (Return response) ->
  poll page (S n) i prev = (events (loop_body page i prev), Ok response).
Proof.
  intros H. cbn [poll]. rewrite (surjective_M (bind _ _)).
  rewrite (events_bind_ok _ _ _ H), (outcome_bind_ok _ _ _ H). simpl.
  now rewrite app_nil_r.
Qed.

(** Once [k] iterations have passed without a [return], the run is the run
    of the remaining iterations. *)
Lemma poll_stored_after (k n i : nat) (prev q : pystr) :
  stored_after page k i prev = Some q ->
  outcome (poll page (k + n) i prev) = outcome (poll page n (k + i) q) /\
  exists pre,
    events (poll page (k + n) i prev) = pre ++ events (poll page n (k + i) q)
    /\ List.length (filter is_tick pre) = k
    /\ ~ In (EvLog LogReplyDone) pre.
Proof.
  revert i prev. induction k as [|k IH]; intros i prev; cbn [stored_after].
  - intros [= ->]. split; [reflexivity | exists []; now repeat split].
  - destruct (outcome (loop_body page i prev)) as [[r|prev']|e] eqn:Hb;
      try discriminate.
    intros Hq. destruct (IH _ _ Hq) as [Ho [pre [He [Hl Hn]]]].
    replace (S k + i)%nat with (k + S i)%nat by lia.
    cbn [Nat.add]. rewrite (poll_next _ _ _ _ Hb). cbn [outcome events fst snd].
    split; [exact Ho|].
    exists (events (loop_body page i prev) ++ pre). repeat split.
    + fold (events (poll page (k + n) (S i) prev')).
      now rewrite He, app_assoc.
    + rewrite filter_app, length_app, Hl.
      fold (ticks_taken (loop_body page i prev)).
      now rewrite loop_body_ticks.
    + intros Hin. apply in_app_or in Hin as [Hin | Hin]; [|now apply Hn].
      now apply (loop_body_next_quiet _ _ _ _ Hb).
Qed.

Lemma stored_after_S (k i : nat) (prev : pystr) :
  stored_after page (S k) i prev =
  match outcome (loop_body page i prev) with
  | Ok (Next prev') => stored_after page k (S i) prev'
  | _ => None
  end.
Proof. reflexivity. Qed.

Lemma stored_after_snoc (k i : nat) (prev : pystr) :
  stored_after page (S k) i prev =
  match stored_after page k i prev with
  | Some q =>
      match outcome (loop_body page (k + i) q) with
      | Ok (Next q') => Some q'
      | _ => None
      end
  | None => None
  end.
Proof.
  revert i prev. induction k as [|k IH]; intros i prev.
  - cbn [stored_after Nat.add].
    now destruct (outcome (loop_body page i prev)) as [[|]|].
  - rewrite (stored_after_S (S k) i prev), (stored_after_S k i prev).
    destruct (outcome (loop_body page i prev)) as [[r|prev']|e];
      try reflexivity.
    rewrite IH. now replace (k + S i)%nat with (S k + i)%nat by lia.
Qed.

Lemma last_cons_default {A} (x d : A) (l : list A) :
  last (x :: l) d = last l x.
Proof.
  revert x d. induction l as [|y l IH]; intros x d; [reflexivity|].
  change (last (x :: y :: l) d) with (last (y :: l) d).
  now rewrite (IH y d), (IH y x).
Qed.

(** What is stored is the text of the last tick that was not skipped. *)
Lemma stored_after_last (k i : nat) (prev q : pystr) :
  stored_after page k i prev = Some q ->
  q = last (map (read page)
              (filter (fun j => negb (skipped page j)) (seq i k))) prev.
Proof.
  revert i prev. induction k as [|k IH]; intros i prev; cbn [stored_after].
  - now intros [= ->].
  - destruct (outcome (loop_body page i prev)) as [[r|prev']|e] eqn:Hb;
      try discriminate.
    intros Hq. apply IH in Hq. apply loop_body_outcome in Hb as [_ Hd].
    symmetry in Hd. cbn [seq filter].
    assert (Hs : skipped page i = contains marker_thinking (read page i))
      by reflexivity.
    destruct (decide_next _ _ _ Hd) as [[Hc ->] | [Hc ->]];
      rewrite Hc in Hs; rewrite Hs.
    + exact Hq.
    + cbn [negb map]. now rewrite last_cons_default.
Qed.

End Polling.

(** ** The polling loop: completion, skipping, time-out *)

Lemma decide_return (prev response : pystr) :
  contains marker_thinking response = false ->
  strip response <> [] ->
  strip response = strip prev ->
  decide prev response = Return response.
Proof.
  intros Hc Hne Heq. unfold decide. rewrite Hc, <- Heq, eqb_refl.
  apply nonempty_length in Hne. now rewrite Hne.
Qed.

Lemma decide_empty (prev : pystr) : decide prev [] = Next [].
Proof.
  unfold decide. change (contains marker_thinking []) with false.
  change (strip []) with (@nil char). cbv iota.
  destruct (strip prev) as [|c s]; [reflexivity|].
  simpl. unfold eqb. now destruct (list_eq_dec N.eq_dec (c :: s) []).
Qed.

Lemma read_response (page : Page) (i : nat) (response : pystr) :
  outcome (get_ai_response page i) = Ok response -> response = read page i.
Proof. rewrite get_ai_response_eq. now intros [= <-]. Qed.

(** C1: when a tick that is not skipped reads a text whose trimmed form is
    non-empty and equal to the trimmed stored previous observation, the
    loop returns on that very tick, and the run returns exactly the text
    just read. *)
Theorem C1_completes_on_repeated_text
  (page : Page) (i : nat) (prev response : pystr) :
  (i < max_ticks)%nat ->
  stored_at page i = Some prev ->
  tk_wait (page i) = Ok tt ->
  outcome (get_ai_response page i) = Ok response ->
  contains marker_thinking response = false ->
  strip response <> [] ->
  strip response = strip prev ->
  outcome (loop_body page i prev) = Ok (Return response) /\
  outcome (wait_for_ai_response page) = Ok response /\
  ticks_taken (wait_for_ai_response page) = S i /\
  In (EvLog LogReplyDone) (events (wait_for_ai_response page)).
Proof.
  intros Hi Hst Hw Hr Hc Hne Heq.
  apply read_response in Hr. subst response.
  assert (Hb : outcome (loop_body page i prev) = Ok (Return (read page i))).
  { rewrite (loop_body_eq _ _ _ Hw). cbn [outcome snd].
    now rewrite decide_return. }
  split; [exact Hb|].
  unfold wait_for_ai_response.
  replace max_ticks with (i + S (max_ticks - S i))%nat by lia.
  destruct (poll_stored_after page i (S (max_ticks - S i)) 0 [] prev Hst)
    as [Ho [pre [He [Hl _]]]].
  rewrite Nat.add_0_r in Ho, He.
  rewrite (poll_return _ _ _ _ _ Hb) in Ho, He. cbn [outcome events fst snd] in *.
  split; [exact Ho|]. unfold ticks_taken. rewrite He. split.
  - rewrite filter_app, length_app, Hl.
    fold (ticks_taken (loop_body page i prev)). rewrite loop_body_ticks. lia.
  - apply in_or_app. right.
    rewrite (loop_body_eq _ _ _ Hw). cbn [events fst].
    right. apply in_or_app. right. left.
    unfold decide_log. now rewrite decide_return.
Qed.

Lemma C1_completes_on_repeated_text_witness :
  outcome (wait_for_ai_response Samples.page_partial) = Ok (lit " partial ")
  /\ ticks_taken (wait_for_ai_response Samples.page_partial) = 4%nat.
Proof.
  destruct (C1_completes_on_repeated_text Samples.page_partial 3
              (lit "partial") (lit " partial ")) as [_ [Ho [Ht _]]].
  - unfold max_ticks. lia.
  - vm_compute. reflexivity.
  - reflexivity.
  - vm_compute. reflexivity.
  - vm_compute. reflexivity.
  - vm_compute. discriminate.
  - vm_compute. reflexivity.
  - split; [exact Ho | exact Ht].
Defined.

(** C2: a tick whose freshly read text contains the in-progress marker
    leaves the stored previous observation as it was and does not end the
    run: the loop goes on to the next tick. *)
Theorem C2_marker_tick_is_skipped
  (page : Page) (i : nat) (prev response : pystr) :
  tk_wait (page i) = Ok tt ->
  outcome (get_ai_response page i) = Ok response ->
  contains marker_thinking response = true ->
  outcome (loop_body page i prev) = Ok (Next prev) /\
  ~ In (EvLog LogReplyDone) (events (loop_body page i prev)) /\
  (stored_at page i = Some prev -> stored_at page (S i) = Some prev) /\
  (forall n, outcome (poll page (S n) i prev)
             = outcome (poll page n (S i) prev)).
Proof.
  intros Hw Hr Hc. apply read_response in Hr. subst response.
  assert (Hb : outcome (loop_body page i prev) = Ok (Next prev)).
  { rewrite (loop_body_eq _ _ _ Hw). cbn [outcome snd].
    unfold decide. now rewrite Hc. }
  split; [exact Hb|]. split; [exact (loop_body_next_quiet _ _ _ _ Hb)|].
  split.
  - intros Hst. unfold stored_at in *. rewrite stored_after_snoc, Hst.
    now rewrite Nat.add_0_r, Hb.
  - intros n. now rewrite (poll_next _ _ _ _ _ Hb).
Qed.

Lemma C2_marker_tick_is_skipped_witness :
  outcome (loop_body Samples.page_partial 1 []) = Ok (Next []).
Proof.
  apply (C2_marker_tick_is_skipped Samples.page_partial 1 []
           (lit "思考中 与 DeepSeek R1 生成")).
  - reflexivity.
  - vm_compute. reflexivity.
  - vm_compute. reflexivity.
Defined.

(** The two scenarios of the specification: empty, interim banner, then the
    same text twice completes at the fourth tick; five texts that never
    repeat, with a budget of five ticks, yield the last one. *)
Example scenario_partial :
  wait_for_ai_response
    (Samples.script
       [Samples.tick_text []; Samples.tick_text marker_thinking;
        Samples.tick_text (lit "partial"); Samples.tick_text (lit "partial")]
       (Samples.tick_text []))
  = ([EvWaitForTimeout 1000; EvLocatorTextContent; EvLog (LogReceiving 1);
      EvWaitForTimeout 1000; EvLocatorTextContent; EvLog LogThinking;
      EvWaitForTimeout 1000; EvLocatorTextContent; EvLog (LogReceiving 3);
      EvWaitForTimeout 1000; EvLocatorTextContent; EvLog LogReplyDone],
     Ok (lit "partial")).
Proof. vm_compute. reflexivity. Qed.

Example scenario_never_repeating :
  outcome (poll Samples.page_counting 5 0 []) = Ok (lit "E").
Proof. vm_compute. reflexivity. Qed.

(** C3 (as the code has it): when all 1800 ticks pass and none of them
    declares completion, the run returns the last stored observation if that
    observation is a non-empty string, and the fallback sentinel otherwise;
    what it returns is a bare string, and the time-out shows only as the
    logged warning. *)
Theorem C3_timeout_returns_last_or_sentinel (page : Page) (prev : pystr) :
  stored_at page max_ticks = Some prev ->
  prev = last_stored page max_ticks /\
  outcome (wait_for_ai_response page)
  = Ok (if truthy prev then prev else msg_timeout) /\
  ticks_taken (wait_for_ai_response page) = max_ticks /\
  In (EvLog LogTimeout) (events (wait_for_ai_response page)) /\
  ~ In (EvLog LogReplyDone) (events (wait_for_ai_response page)).
Proof.
  intros Hst. split.
  { exact (stored_after_last page max_ticks 0 [] prev Hst). }
  unfold wait_for_ai_response.
  destruct (poll_stored_after page max_ticks 0 0 [] prev Hst)
    as [Ho [pre [He [Hl Hn]]]].
  rewrite Nat.add_0_r in Ho, He.
  cbn [poll] in Ho, He. cbn [log bind ret outcome events fst snd app] in Ho, He.
  split; [exact Ho|]. unfold ticks_taken. rewrite He. repeat split.
  - rewrite filter_app, length_app, Hl. apply Nat.add_0_r.
  - apply in_or_app. right. now left.
  - intros Hin. apply in_app_or in Hin as [Hin | [Hin | []]];
      [now apply Hn | discriminate].
Qed.

Lemma C3_timeout_returns_last_or_sentinel_witness :
  outcome (wait_for_ai_response Samples.page_counting) = Ok [1864%N].
Proof.
  assert (Hst : stored_at Samples.page_counting max_ticks = Some [1864%N])
    by (vm_compute; reflexivity).
  destruct (C3_timeout_returns_last_or_sentinel
              Samples.page_counting [1864%N] Hst) as [_ [Ho _]].
  exact Ho.
Defined.

(** C3, as stated, fails twice.  A non-empty observation was stored at the
    first tick of [page_vanishing], and the run returns the sentinel, not
    the last stored observation (the empty text).  And the timed-out run of
    [page_alternating] returns the very value that the completed run of
    [page_constant] returns: nothing in the result marks it as not
    completed. *)
Lemma C3_counterexample :
  (stored_at Samples.page_vanishing 1 = Some (lit "a") /\
   stored_at Samples.page_vanishing max_ticks = Some [] /\
   outcome (wait_for_ai_response Samples.page_vanishing) = Ok msg_timeout /\
   msg_timeout <> []) /\
  (stored_at Samples.page_alternating max_ticks = Some (lit "a") /\
   outcome (loop_body Samples.page_constant 1 (lit "a"))
   = Ok (Return (lit "a")) /\
   outcome (wait_for_ai_response Samples.page_alternating)
   = outcome (wait_for_ai_response Samples.page_constant)).
Proof.
  vm_compute. repeat split; discriminate.
Qed.

(** C4 (as the code has it): a tick whose read of the response region
    raises does not raise in the loop: [get_ai_response] swallows the error
    and yields the empty text, the tick does not end the run, and it stores
    the empty text as the previous observation. *)
Theorem C4_read_error_stores_empty
  (page : Page) (i : nat) (prev : pystr) (e : exn) :
  tk_wait (page i) = Ok tt ->
  tk_text (page i) = Raise e ->
  get_ai_response page i
  = ([EvLocatorTextContent; EvLog (LogReadError e)], Ok []) /\
  loop_body page i prev
  = ([EvWaitForTimeout 1000; EvLocatorTextContent; EvLog (LogReadError e);
      EvLog (LogReceiving (i + 1))],
     Ok (Next [])).
Proof.
  intros Hw Ht.
  assert (Hr : read page i = []) by (unfold read; now rewrite Ht).
  split.
  - now rewrite get_ai_response_eq, Ht, Hr.
  - rewrite (loop_body_eq _ _ _ Hw), get_ai_response_eq, Ht, Hr.
    unfold decide_log. now rewrite decide_empty.
Qed.

Lemma C4_read_error_stores_empty_witness :
  outcome (loop_body Samples.page_glitch 1 (lit "partial")) = Ok (Next []).
Proof.
  destruct (C4_read_error_stores_empty Samples.page_glitch 1 (lit "partial")
              (PlaywrightError (lit "Timeout 30000ms exceeded")))
    as [_ Hb].
  - reflexivity.
  - reflexivity.
  - now rewrite Hb.
Defined.

(** C4, as stated, fails: the failed read at tick 1 of [page_glitch] turns
    the stored observation "partial" into the empty text, where a skipped
    tick would have kept it; the equal text read at tick 2 therefore does
    not complete the run. *)
Lemma C4_counterexample :
  (exists e, tk_text (Samples.page_glitch 1) = Raise e) /\
  stored_at Samples.page_glitch 1 = Some (lit "partial") /\
  stored_at Samples.page_glitch 2 = Some [] /\
  stored_at Samples.page_glitch 2 <> stored_at Samples.page_glitch 1 /\
  outcome (loop_body Samples.page_glitch 2 [])
  = Ok (Next (lit "partial")).
Proof.
  split; [eexists; reflexivity|].
  vm_compute. repeat split; discriminate.
Qed.

(** C10: reading the response region never fails: whatever the page
    answers, [get_ai_response] returns a string, the empty one when the
    lookup or the extraction raises and when the text content is [None],
    and no exception reaches the polling loop. *)
Theorem C10_get_ai_response_total (page : Page) (i : nat) :
  outcome (get_ai_response page i)
  = Ok (match tk_text (page i) with
        | Ok (Some s) => s
        | Ok None => []
        | Raise _ => []
        end) /\
  (forall e, outcome (get_ai_response page i) <> Raise e) /\
  forall prev e, outcome (loop_body page i prev) = Raise e ->
                 tk_wait (page i) = Raise e.
Proof.
  rewrite get_ai_response_eq. unfold read. cbn [outcome snd].
  split; [now destruct (tk_text (page i)) as [[s|]|e]|].
  split; [discriminate|].
  intros prev e. destruct (tk_wait (page i)) as [[]|e'] eqn:Hw.
  - rewrite (loop_body_eq _ _ _ Hw). discriminate.
  - rewrite (loop_body_raise _ _ _ _ Hw). now intros [= ->].
Qed.

(** ** The scan of the buttons *)

Lemma scan_buttons_cons (b : Element) (rest : list Element) (i w v : Z)
      (s : pystr) :
  el_text_content b = Ok (Some s) ->
  scan_buttons (b :: rest) i w v =
  let m := if is_web b then scan_buttons rest (i + 1) i v
           else if is_video b then scan_buttons rest (i + 1) w i
                else scan_buttons rest (i + 1) w v in
  (EvTextContent (el_id b) :: events m, outcome m).
Proof.
  intros Ht. unfold is_video, is_web, text_has. cbn [scan_buttons].
  unfold text_content, call, py_in. rewrite Ht. cbn [bind ret app].
  destruct (contains marker_web s); cbn [negb andb].
  - now destruct (scan_buttons rest (i + 1) i v).
  - destruct (contains marker_video s).
    + now destruct (scan_buttons rest (i + 1) w i).
    + now destruct (scan_buttons rest (i + 1) w v).
Qed.

(** When every text can be read the scan does not raise; it reads the text
    of each button once, in document order. *)
Lemma scan_buttons_ok (l : list Element) (i w v : Z) :
  Forall has_text l ->
  scan_buttons l i w v =
  (map (fun b => EvTextContent (el_id b)) l, Ok (scan_indices l i w v)).
Proof.
  intros H. revert i w v. induction H as [|b rest [s Hs] _ IH]; intros i w v.
  - reflexivity.
  - rewrite (scan_buttons_cons _ _ _ _ _ _ Hs). cbn [scan_indices map].
    destruct (is_web b); [|destruct (is_video b)]; now rewrite IH.
Qed.

(** A scan that does not raise has read a text on every button. *)
Lemma scan_buttons_inv (l : list Element) (i w v : Z) (r : Z * Z) :
  outcome (scan_buttons l i w v) = Ok r -> Forall has_text l.
Proof.
  revert i w v. induction l as [|b rest IH]; intros i w v; [constructor|].
  destruct (el_text_content b) as [[s|]|e] eqn:Hs.
  - rewrite (scan_buttons_cons _ _ _ _ _ _ Hs). cbn [outcome snd].
    intros H. constructor; [now exists s|].
    destruct (is_web b); [|destruct (is_video b)]; exact (IH _ _ _ H).
  - cbn [scan_buttons]. unfold text_content, call, py_in. rewrite Hs.
    discriminate.
  - cbn [scan_buttons]. unfold text_content, call. rewrite Hs. discriminate.
Qed.

Lemma scan_buttons_quiet (l : list Element) (i w v : Z) :
  forallb (fun e => negb (is_poll e)) (events (scan_buttons l i w v)) = true.
Proof.
  revert i w v. induction l as [|b rest IH]; intros i w v; [reflexivity|].
  destruct (el_text_content b) as [[s|]|e] eqn:Hs.
  - rewrite (scan_buttons_cons _ _ _ _ _ _ Hs). cbn [events fst forallb].
    destruct (is_web b); [|destruct (is_video b)]; apply IH.
  - cbn [scan_buttons]. unfold text_content, call, py_in. now rewrite Hs.
  - cbn [scan_buttons]. unfold text_content, call. now rewrite Hs.
Qed.

Lemma last_from_cons (f : Element -> bool) (b : Element)
      (rest : list Element) (i d k : Z) :
  last_from f rest (i + 1) (if f b then i else d) k ->
  last_from f (b :: rest) i d k.
Proof.
  intros [[-> Hall] | [n [x [-> [Hn [Hf Hlast]]]]]].
  - destruct (f b) eqn:Hb.
    + right. exists 0%nat, b. repeat split; [lia | assumption |].
      intros [|m] b' Hm; [lia|]. cbn [nth_error]. intros Hx.
      apply Hall. now apply nth_error_In with m.
    + left. split; [reflexivity|]. now intros x [<- | Hx]; [|apply Hall].
  - right. exists (S n), x. repeat split; [lia | assumption | assumption |].
    intros [|m] b' Hm; [lia|]. cbn [nth_error]. apply Hlast. lia.
Qed.

Lemma is_video_not_web (b : Element) : is_web b = true -> is_video b = false.
Proof. unfold is_video, is_web. now intros ->. Qed.

Lemma scan_indices_spec (l : list Element) (i w v : Z) :
  last_from is_web l i w (fst (scan_indices l i w v)) /\
  last_from is_video l i v (snd (scan_indices l i w v)).
Proof.
  revert i w v. induction l as [|b rest IH]; intros i w v.
  - split; left; now split.
  - cbn [scan_indices].
    destruct (is_web b) eqn:Hw; [|destruct (is_video b) eqn:Hv].
    + destruct (IH (i + 1)%Z i v) as [H1 H2].
      split; apply last_from_cons.
      * now rewrite Hw.
      * now rewrite (is_video_not_web _ Hw).
    + destruct (IH (i + 1)%Z w i) as [H1 H2].
      split; apply last_from_cons; [now rewrite Hw | now rewrite Hv].
    + destruct (IH (i + 1)%Z w v) as [H1 H2].
      split; apply last_from_cons; [now rewrite Hw | now rewrite Hv].
Qed.

Lemma last_from_index (f : Element -> bool) (l : list Element) (k : Z) :
  last_from f l 0 (-1) k <-> last_index_of f l k.
Proof. reflexivity. Qed.

Lemma last_index_of_ext (f g : Element -> bool) (l : list Element) (k : Z) :
  (forall b, In b l -> f b = g b) ->
  last_index_of f l k -> last_index_of g l k.
Proof.
  intros Hfg [[-> Hall] | [n [b [-> [Hn [Hf Hlast]]]]]].
  - left. split; [reflexivity|]. intros b Hb. rewrite <- (Hfg b Hb).
    now apply Hall.
  - right. exists n, b. repeat split; try assumption.
    + rewrite <- (Hfg b); [assumption | now apply nth_error_In with n].
    + intros m b' Hm Hb'. rewrite <- (Hfg b').
      * now apply Hlast with m.
      * now apply nth_error_In with m.
Qed.

Lemma last_index_of_range (f : Element -> bool) (l : list Element) (k : Z) :
  last_index_of f l k -> k <> (-1)%Z ->
  (0 <= k < Z.of_nat (List.length l))%Z.
Proof.
  intros [[-> _] | [n [b [-> [Hn _]]]]] Hk; [congruence|].
  assert (n < List.length l)%nat by (apply nth_error_Some; congruence).
  lia.
Qed.

(** ** Slices *)

Lemma skipn_nth_error {A} (l : list A) (n : nat) (x : A) :
  nth_error l n = Some x -> exists t, skipn n l = x :: t.
Proof.
  revert l. induction n as [|n IH]; intros [|y l]; try discriminate.
  - intros [= ->]. now exists l.
  - cbn [nth_error skipn]. apply IH.
Qed.

Lemma slice_empty {A} (l : list A) (lo hi : Z) :
  (0 <= lo)%Z -> (0 <= hi)%Z -> (hi <= lo)%Z -> slice l lo hi = [].
Proof.
  intros Hlo Hhi Hle. unfold slice, slice_bound.
  destruct (Z.ltb_spec lo 0); [lia|]. destruct (Z.ltb_spec hi 0); [lia|].
  replace (Z.to_nat _) with 0%nat by lia. reflexivity.
Qed.

Lemma slice_head {A} (l : list A) (lo hi : Z) :
  (0 <= lo)%Z -> (lo < hi)%Z -> (hi < Z.of_nat (List.length l))%Z ->
  exists x t, nth_error l (Z.to_nat lo) = Some x /\ slice l lo hi = x :: t.
Proof.
  intros Hlo Hlt Hhi. unfold slice, slice_bound.
  destruct (Z.ltb_spec lo 0); [lia|]. destruct (Z.ltb_spec hi 0); [lia|].
  rewrite !Z.min_l by lia.
  destruct (nth_error l (Z.to_nat lo)) as [x|] eqn:Hx.
  - destruct (skipn_nth_error _ _ _ Hx) as [t ->].
    exists x. destruct (Z.to_nat (hi - lo)) as [|m] eqn:Hm; [lia|].
    now eexists.
  - apply nth_error_None in Hx. lia.
Qed.

(** ** The phases of a run *)

Lemma quiet_app (t u : list event) : quiet (t ++ u) = quiet t && quiet u.
Proof. apply forallb_app. Qed.

Lemma quiet_no_tick (t : list event) :
  quiet t = true ->
  List.length (filter is_tick t) = 0%nat /\ ~ In EvLocatorTextContent t.
Proof.
  induction t as [|e t IH]; [now split|].
  cbn [quiet forallb]. fold (quiet t). intros H.
  apply andb_true_iff in H as [He Ht]. destruct (IH Ht) as [Hl Hn].
  split.
  - cbn [filter]. destruct e; try exact Hl; discriminate.
  - intros [-> | Hin]; [discriminate | now apply Hn].
Qed.

Lemma navigate_quiet (env : Env) : quiet (events (navigate env)) = true.
Proof.
  unfold navigate, call, log, click.
  destruct (env_goto env) as [[]|]; [|reflexivity].
  destruct (env_load_state env) as [[]|]; [|reflexivity].
  destruct (env_mode_button env) as [[b|]|]; try reflexivity.
  cbn. now destruct (el_click b) as [[]|].
Qed.

Lemma enter_query_quiet (env : Env) (input_text : pystr) :
  quiet (events (enter_query env input_text)) = true.
Proof.
  unfold enter_query, query_selector_all, call, log, fill.
  destruct (env_dom_inputs env) as [d|]; [|reflexivity].
  cbn [bind ret app].
  destruct (filter (matches sel_inputs) d) as [|x l]; [reflexivity|].
  cbn. now destruct (el_fill x) as [[]|].
Qed.

Lemma find_buttons_quiet (env : Env) : quiet (events (find_buttons env)) = true.
Proof.
  unfold find_buttons, query_selector_all, call.
  now destruct (env_dom_buttons env).
Qed.

Lemma submit_quiet (buttons : list Element) :
  quiet (events (submit buttons)) = true.
Proof.
  unfold submit. pose proof (scan_buttons_quiet buttons 0 (-1) (-1)) as Hq.
  fold (quiet (events (scan_buttons buttons 0 (-1) (-1)))) in Hq.
  destruct (scan_buttons buttons 0 (-1) (-1)) as [t [[w v]|e]];
    cbn [events fst] in Hq; [|exact Hq].
  cbn [bind].
  destruct ((w =? -1)%Z || (v =? -1)%Z).
  - cbn [raise events fst]. now rewrite app_nil_r.
  - destruct (slice buttons (w + 1) v) as [|x l].
    + cbn [raise events fst]. now rewrite app_nil_r.
    + unfold click, call, log. destruct (el_click x) as [[]|];
        cbn [bind events fst app]; rewrite quiet_app, Hq; reflexivity.
Qed.

Lemma session_split (env : Env) (input_text : pystr)
      (buttons : list Element) :
  outcome (navigate env) = Ok tt ->
  outcome (enter_query env input_text) = Ok tt ->
  outcome (find_buttons env) = Ok buttons ->
  events (session env input_text)
  = events (navigate env) ++ events (enter_query env input_text)
    ++ events (find_buttons env)
    ++ events (submit buttons ;; wait_for_ai_response (env_page env)) /\
  outcome (session env input_text)
  = outcome (submit buttons ;; wait_for_ai_response (env_page env)).
Proof.
  intros Hn He Hf. unfold session. split.
  - rewrite (events_bind_ok _ _ _ Hn). cbv beta.
    rewrite (events_bind_ok _ _ _ He). cbv beta.
    now rewrite (events_bind_ok _ _ _ Hf).
  - rewrite (outcome_bind_ok _ _ _ Hn). cbv beta.
    rewrite (outcome_bind_ok _ _ _ He). cbv beta.
    now rewrite (outcome_bind_ok _ _ _ Hf).
Qed.

(** A run whose submission raises never polls. *)
Lemma session_submit_raise (env : Env) (input_text : pystr)
      (buttons : list Element) (e : exn) :
  outcome (navigate env) = Ok tt ->
  outcome (enter_query env input_text) = Ok tt ->
  outcome (find_buttons env) = Ok buttons ->
  outcome (submit buttons) = Raise e ->
  outcome (session env input_text) = Raise e /\
  quiet (events (session env input_text)) = true.
Proof.
  intros Hn He Hf Hs.
  destruct (session_split env input_text buttons Hn He Hf) as [Hev Ho].
  rewrite Ho, Hev, (outcome_bind_raise _ _ _ Hs), (events_bind_raise _ _ _ Hs).
  split; [reflexivity|].
  now rewrite !quiet_app, navigate_quiet, enter_query_quiet,
    find_buttons_quiet, submit_quiet.
Qed.

(** The whole run around its [try] statement. *)
Lemma chat_split (env : Env) (input_text : pystr) :
  acquired env ->
  events (chat_with_stepfun_ai env input_text)
  = acquisition ++ events (session env input_text)
    ++ [EvBrowserClose; EvPlaywrightStop] /\
  outcome (chat_with_stepfun_ai env input_text)
  = match env_stop env with
    | Raise e => Raise e
    | Ok _ =>
        match env_close env with
        | Raise e => Raise e
        | Ok _ => outcome (session env input_text)
        end
    end.
Proof.
  intros (H1 & H2 & H3 & H4 & H5).
  unfold chat_with_stepfun_ai, call, log, acquisition.
  rewrite H1, H2, H3, H4, H5.
  destruct (session env input_text) as [t r].
  destruct (env_close env) as [[]|e1], (env_stop env) as [[]|e2];
    cbn; rewrite <- app_assoc; split; reflexivity.
Qed.

Lemma chat_quiet (env : Env) (input_text : pystr) :
  acquired env ->
  quiet (events (session env input_text)) = true ->
  ticks_taken (chat_with_stepfun_ai env input_text) = 0%nat /\
  ~ In EvLocatorTextContent (events (chat_with_stepfun_ai env input_text)).
Proof.
  intros Ha Hq. unfold ticks_taken.
  destruct (chat_split env input_text Ha) as [-> _].
  apply quiet_no_tick. now rewrite !quiet_app, Hq.
Qed.

Lemma chat_outcome (env : Env) (input_text : pystr) :
  acquired env -> released env ->
  outcome (chat_with_stepfun_ai env input_text)
  = outcome (session env input_text).
Proof.
  intros Ha [Hc Hs]. destruct (chat_split env input_text Ha) as [_ ->].
  now rewrite Hc, Hs.
Qed.

(** ** The boundary markers *)

Lemma scan_result (buttons : list Element) :
  Forall has_text buttons ->
  exists w v,
    scan_buttons buttons 0 (-1) (-1)
    = (map (fun b => EvTextContent (el_id b)) buttons, Ok (w, v)) /\
    last_index_of is_web buttons w /\ last_index_of is_video buttons v.
Proof.
  intros H. rewrite (scan_buttons_ok _ 0 (-1) (-1) H).
  pose proof (scan_indices_spec buttons 0 (-1) (-1)) as [Hw Hv].
  destruct (scan_indices buttons 0 (-1) (-1)) as [w v].
  exists w, v. now repeat split.
Qed.

(** C9: the index recorded for the left marker is that of the last button
    whose text contains it; the index recorded for the right marker is that
    of the last button whose text contains the right marker and not the left
    one, so a button with the left marker in its text is never the right
    boundary; where no button has both markers this is the last button with
    the right marker. *)
Theorem C9_last_match_is_recorded (buttons : list Element) :
  Forall has_text buttons ->
  exists w v,
    outcome (scan_buttons buttons 0 (-1) (-1)) = Ok (w, v) /\
    last_index_of (text_has marker_web) buttons w /\
    last_index_of
      (fun b => negb (text_has marker_web b) && text_has marker_video b)
      buttons v /\
    (forall b, nth_error buttons (Z.to_nat v) = Some b -> v <> (-1)%Z ->
               text_has marker_web b = false) /\
    ((forall b, In b buttons -> text_has marker_web b = true ->
                text_has marker_video b = false) ->
     last_index_of (text_has marker_video) buttons v).
Proof.
  intros H. destruct (scan_result buttons H) as [w [v [Hs [Hw Hv]]]].
  exists w, v. rewrite Hs. repeat split; try assumption.
  - intros b Hb Hne.
    destruct Hv as [[-> _] | [n [b' [-> [Hn [Hf _]]]]]]; [congruence|].
    rewrite Nat2Z.id, Hn in Hb. injection Hb as <-.
    unfold is_video in Hf. now destruct (text_has marker_web b').
  - intros Hex. apply (last_index_of_ext is_video); [|exact Hv].
    intros b Hb. unfold is_video. specialize (Hex b Hb).
    destruct (text_has marker_web b); [now rewrite Hex|reflexivity].
Qed.

Lemma C9_last_match_is_recorded_witness :
  outcome (scan_buttons Samples.buttons_mixed 0 (-1) (-1))
  = Ok (5%Z, 4%Z).
Proof.
  assert (H : Forall has_text Samples.buttons_mixed).
  { repeat constructor; eexists; reflexivity. }
  destruct (C9_last_match_is_recorded Samples.buttons_mixed H)
    as [w [v [Hs _]]].
  rewrite Hs. vm_compute in Hs. symmetry. exact Hs.
Defined.

Lemma submit_no_target (buttons : list Element) :
  Forall has_text buttons ->
  (forall b, In b buttons -> text_has marker_web b = false) \/
  (forall b, In b buttons -> text_has marker_video b = false) ->
  outcome (submit buttons) = Raise (Exception msg_no_target).
Proof.
  intros H Hnone. destruct (scan_result buttons H) as [w [v [Hs [Hw Hv]]]].
  assert (Hc : (w =? -1)%Z || (v =? -1)%Z = true).
  { apply orb_true_iff. destruct Hnone as [Hno | Hno]; [left | right].
    - destruct Hw as [[-> _] | [n [b [_ [Hn [Hf _]]]]]]; [reflexivity|].
      apply nth_error_In in Hn. unfold is_web in Hf.
      rewrite (Hno b Hn) in Hf. discriminate.
    - destruct Hv as [[-> _] | [n [b [_ [Hn [Hf _]]]]]]; [reflexivity|].
      apply nth_error_In in Hn. unfold is_video in Hf.
      rewrite (Hno b Hn), andb_false_r in Hf. discriminate. }
  unfold submit. rewrite Hs. cbn [bind]. now rewrite Hc.
Qed.

(** C5: when no button's text contains the left marker, or none contains
    the right marker, the run fails with the control-not-found exception and
    makes no call of the polling loop. *)
Theorem C5_missing_marker_fails
  (env : Env) (input_text : pystr) (buttons : list Element) :
  acquired env -> released env ->
  outcome (navigate env) = Ok tt ->
  outcome (enter_query env input_text) = Ok tt ->
  outcome (find_buttons env) = Ok buttons ->
  Forall has_text buttons ->
  (forall b, In b buttons -> text_has marker_web b = false) \/
  (forall b, In b buttons -> text_has marker_video b = false) ->
  outcome (chat_with_stepfun_ai env input_text)
  = Raise (Exception msg_no_target) /\
  ControlNotFoundError (Exception msg_no_target) = true /\
  ticks_taken (chat_with_stepfun_ai env input_text) = 0%nat /\
  ~ In EvLocatorTextContent (events (chat_with_stepfun_ai env input_text)).
Proof.
  intros Ha Hr Hn He Hf Ht Hnone.
  pose proof (submit_no_target buttons Ht Hnone) as Hs.
  destruct (session_submit_raise env input_text buttons _ Hn He Hf Hs)
    as [Ho Hq].
  rewrite (chat_outcome env input_text Ha Hr), Ho.
  split; [reflexivity|]. split; [reflexivity|].
  exact (chat_quiet env input_text Ha Hq).
Qed.

Lemma C5_missing_marker_fails_witness :
  outcome (chat_with_stepfun_ai
             (Samples.env_of Samples.dom_no_video Samples.page_constant)
             (lit "hello"))
  = Raise (Exception msg_no_target).
Proof.
  apply (C5_missing_marker_fails
           (Samples.env_of Samples.dom_no_video Samples.page_constant)
           (lit "hello")
           [Samples.element 4 TButton (lit "联网");
            Samples.element 5 TButton []]).
  - repeat split.
  - split; reflexivity.
  - reflexivity.
  - reflexivity.
  - reflexivity.
  - repeat constructor; eexists; reflexivity.
  - right. intros b [<- | [<- | []]]; reflexivity.
Defined.

Lemma submit_between (buttons : list Element) (w v : Z) :
  outcome (scan_buttons buttons 0 (-1) (-1)) = Ok (w, v) ->
  w <> (-1)%Z -> v <> (-1)%Z ->
  (0 <= w < Z.of_nat (List.length buttons))%Z /\
  (0 <= v < Z.of_nat (List.length buttons))%Z /\
  submit buttons
  = (events (scan_buttons buttons 0 (-1) (-1))
       ++ match slice buttons (w + 1) v with
          | [] => []
          | b :: _ =>
              EvClick (el_id b)
                :: match el_click b with
                   | Ok _ => [EvLog LogChatClicked]
                   | Raise _ => []
                   end
          end,
     match slice buttons (w + 1) v with
     | [] => Raise (Exception msg_no_chat)
     | b :: _ => el_click b
     end).
Proof.
  intros Ho Hw Hv.
  pose proof (scan_buttons_inv _ _ _ _ _ Ho) as Ht.
  destruct (scan_result buttons Ht) as [w' [v' [Hs [Hlw Hlv]]]].
  rewrite Hs in Ho. injection Ho as -> ->.
  split; [exact (last_index_of_range _ _ _ Hlw Hw)|].
  split; [exact (last_index_of_range _ _ _ Hlv Hv)|].
  unfold submit. rewrite Hs. cbn [bind events fst].
  destruct (Z.eqb_spec w (-1)); [contradiction|].
  destruct (Z.eqb_spec v (-1)); [contradiction|]. cbn [orb].
  destruct (slice buttons (w + 1) v) as [|b l]; [reflexivity|].
  unfold click, call, log. now destruct (el_click b) as [[]|e].
Qed.

(** C6: when both markers were found, at the indices [w] and [v], the
    button that is clicked is the one at index [w + 1], the first index
    strictly between [w] and [v]; when no index lies strictly between them
    the run fails with the control-not-found exception, without a click and
    without polling. *)
Theorem C6_first_button_between
  (env : Env) (input_text : pystr) (buttons : list Element) (w v : Z) :
  acquired env -> released env ->
  outcome (navigate env) = Ok tt ->
  outcome (enter_query env input_text) = Ok tt ->
  outcome (find_buttons env) = Ok buttons ->
  outcome (scan_buttons buttons 0 (-1) (-1)) = Ok (w, v) ->
  w <> (-1)%Z -> v <> (-1)%Z ->
  ((exists j, w < j < v)%Z ->
   exists b t,
     nth_error buttons (Z.to_nat (w + 1)) = Some b /\
     (w < w + 1 < v)%Z /\ (forall j, (w < j < v)%Z -> (w + 1 <= j)%Z) /\
     events (submit buttons)
     = events (scan_buttons buttons 0 (-1) (-1)) ++ EvClick (el_id b) :: t /\
     (t = [] \/ t = [EvLog LogChatClicked]) /\
     outcome (submit buttons) = el_click b) /\
  (~ (exists j, w < j < v)%Z ->
   events (submit buttons) = events (scan_buttons buttons 0 (-1) (-1)) /\
   outcome (chat_with_stepfun_ai env input_text)
   = Raise (Exception msg_no_chat) /\
   ControlNotFoundError (Exception msg_no_chat) = true /\
   ticks_taken (chat_with_stepfun_ai env input_text) = 0%nat).
Proof.
  intros Ha Hr Hn He Hf Ho Hw Hv.
  destruct (submit_between buttons w v Ho Hw Hv) as [Rw [Rv Hs]].
  split.
  - intros [j Hj].
    destruct (slice_head buttons (w + 1) v) as [b [l [Hb Hsl]]]; try lia.
    rewrite Hsl in Hs. rewrite Hs. cbn [events outcome fst snd].
    exists b. eexists. split; [exact Hb|]. split; [lia|].
    split; [intros; lia|]. split; [reflexivity|]. split; [|reflexivity].
    destruct (el_click b); [now right | now left].
  - intros Hnone.
    assert (Hle : (v <= w + 1)%Z).
    { destruct (Z.le_gt_cases v (w + 1)) as [H | H]; [exact H|].
      exfalso. apply Hnone. exists (w + 1)%Z. lia. }
    rewrite (slice_empty buttons (w + 1) v) in Hs by lia.
    assert (Hraise : outcome (submit buttons) = Raise (Exception msg_no_chat))
      by now rewrite Hs.
    destruct (session_submit_raise env input_text buttons _ Hn He Hf Hraise)
      as [Hso Hq].
    rewrite (chat_outcome env input_text Ha Hr), Hso, Hs.
    cbn [events fst]. rewrite app_nil_r. repeat split.
    exact (proj1 (chat_quiet env input_text Ha Hq)).
Qed.

Lemma C6_first_button_between_witness :
  exists t,
    events (submit (filter (matches sel_button) Samples.dom_chat))
    = events (scan_buttons (filter (matches sel_button) Samples.dom_chat)
                0 (-1) (-1))
      ++ EvClick 5 :: t.
Proof.
  destruct (C6_first_button_between
              (Samples.env_of Samples.dom_chat Samples.page_partial)
              (lit "hello")
              (filter (matches sel_button) Samples.dom_chat) 1 3)
    as [Hpos _].
  - repeat split.
  - split; reflexivity.
  - reflexivity.
  - reflexivity.
  - reflexivity.
  - vm_compute. reflexivity.
  - discriminate.
  - discriminate.
  - destruct Hpos as [b [t [Hb [_ [_ [Hev _]]]]]].
    + exists 2%Z. lia.
    + vm_compute in Hb. injection Hb as <-. exists t. exact Hev.
Defined.

(** ** The input field *)

Lemma matches_sel_inputs (el : Element) :
  matches sel_inputs el = text_input_capable el.
Proof.
  unfold sel_inputs, text_input_capable. cbn [matches].
  now destruct (el_tag el).
Qed.

Lemma filter_sel_inputs (dom : list Element) :
  filter (matches sel_inputs) dom = filter text_input_capable dom.
Proof. apply filter_ext. exact matches_sel_inputs. Qed.

Lemma find_filter {A} (f : A -> bool) (l : list A) :
  find f l = hd_error (filter f l).
Proof.
  induction l as [|x l IH]; [reflexivity|].
  cbn [find filter]. now destruct (f x).
Qed.

Lemma find_first {A} (f : A -> bool) (l : list A) (x : A) :
  find f l = Some x ->
  exists before after,
    l = before ++ x :: after /\
    (forall y, In y before -> f y = false) /\ f x = true.
Proof.
  induction l as [|y l IH]; [discriminate|]. cbn [find].
  destruct (f y) eqn:Hy.
  - intros [= ->]. exists [], l. now repeat split.
  - intros H. destruct (IH H) as [before [after [-> [Hb Hx]]]].
    exists (y :: before), after. repeat split; [|exact Hx].
    intros z [<- | Hz]; [exact Hy | now apply Hb].
Qed.

Lemma enter_query_eq (env : Env) (input_text : pystr) (dom : list Element) :
  env_dom_inputs env = Ok dom ->
  enter_query env input_text =
  match filter text_input_capable dom with
  | [] =>
      ([EvQuerySelectorAll sel_inputs; EvLog (LogFoundInputs 0)],
       Raise (Exception msg_no_input))
  | el :: l =>
      (EvQuerySelectorAll sel_inputs :: EvLog (LogFoundInputs (S (List.length l)))
         :: EvFill (el_id el) input_text
         :: match el_fill el with
            | Ok _ => [EvLog LogTextEntered]
            | Raise _ => []
            end,
       match el_fill el with
       | Ok _ => Ok tt
       | Raise e => Raise e
       end)
  end.
Proof.
  intros Hd. unfold enter_query, query_selector_all, call, log, fill.
  rewrite Hd, <- filter_sel_inputs. cbn [bind ret app].
  destruct (filter (matches sel_inputs) dom) as [|el l]; [reflexivity|].
  cbn. now destruct (el_fill el) as [[]|e].
Qed.

(** C7: the element that receives the query text is the first element of
    the document, in document order, that is a native input, a text area or
    an editable region; when the document has none the run fails with the
    control-not-found exception. *)
Theorem C7_first_input_is_filled
  (env : Env) (input_text : pystr) (dom : list Element) :
  acquired env -> released env ->
  outcome (navigate env) = Ok tt ->
  env_dom_inputs env = Ok dom ->
  match find text_input_capable dom with
  | Some el =>
      (exists before after,
          dom = before ++ el :: after /\
          (forall x, In x before -> text_input_capable x = false) /\
          text_input_capable el = true) /\
      exists n t,
        events (enter_query env input_text)
        = EvQuerySelectorAll sel_inputs :: EvLog (LogFoundInputs n)
            :: EvFill (el_id el) input_text :: t /\
        (t = [] \/ t = [EvLog LogTextEntered])
  | None =>
      events (enter_query env input_text)
      = [EvQuerySelectorAll sel_inputs; EvLog (LogFoundInputs 0)] /\
      outcome (chat_with_stepfun_ai env input_text)
      = Raise (Exception msg_no_input) /\
      ControlNotFoundError (Exception msg_no_input) = true
  end.
Proof.
  intros Ha Hr Hn Hd.
  pose proof (enter_query_eq env input_text dom Hd) as Heq.
  destruct (find text_input_capable dom) as [el|] eqn:Hfind.
  - split; [exact (find_first _ _ _ Hfind)|].
    rewrite find_filter in Hfind.
    destruct (filter text_input_capable dom) as [|x l]; [discriminate|].
    injection Hfind as ->. rewrite Heq. cbn [events fst].
    do 2 eexists. split; [reflexivity|].
    destruct (el_fill el); [now right | now left].
  - rewrite find_filter in Hfind.
    destruct (filter text_input_capable dom) as [|x l]; [|discriminate].
    rewrite Heq. split; [reflexivity|]. split; [|reflexivity].
    rewrite (chat_outcome env input_text Ha Hr). unfold session.
    rewrite (outcome_bind_ok _ _ _ Hn). cbv beta.
    apply outcome_bind_raise. now rewrite Heq.
Qed.

Lemma C7_first_input_is_filled_witness :
  exists n t,
    events (enter_query (Samples.env_of Samples.dom_chat Samples.page_partial)
              (lit "hello"))
    = EvQuerySelectorAll sel_inputs :: EvLog (LogFoundInputs n)
        :: EvFill 2 (lit "hello") :: t.
Proof.
  destruct (C7_first_input_is_filled
              (Samples.env_of Samples.dom_chat Samples.page_partial)
              (lit "hello") Samples.dom_chat)
    as [_ [n [t [Hev _]]]].
  - repeat split.
  - split; reflexivity.
  - reflexivity.
  - reflexivity.
  - exists n, t. exact Hev.
Defined.

(** ** Release of the browser *)

Lemma chat_ends_with_stop (env : Env) (input_text : pystr) :
  env_makedirs env = Ok tt -> env_playwright env = Ok tt ->
  exists pre,
    events (chat_with_stepfun_ai env input_text) = pre ++ [EvPlaywrightStop].
Proof.
  intros H1 H2. unfold chat_with_stepfun_ai.
  rewrite (events_bind_ok _ _ tt) by reflexivity. cbv beta.
  rewrite (events_bind_ok _ _ tt) by (unfold call; now rewrite H1). cbv beta.
  rewrite (events_bind_ok _ _ tt) by (unfold call; now rewrite H2). cbv beta.
  rewrite events_try_finally. eexists.
  rewrite !app_assoc. reflexivity.
Qed.

(** C8: every run that started Playwright ends with the exit of the
    [async with] block; and once the browser, its context and its page were
    obtained, every run, however its [try] body ends (a returned reply, the
    time-out value, a control that was not found, any other exception),
    closes the browser right after that body, before the result or the
    exception reaches the caller. *)
Theorem C8_browser_closed_on_every_path (env : Env) (input_text : pystr) :
  env_makedirs env = Ok tt -> env_playwright env = Ok tt ->
  (exists pre,
      events (chat_with_stepfun_ai env input_text)
      = pre ++ [EvPlaywrightStop]) /\
  (env_launch env = Ok tt -> env_new_context env = Ok tt ->
   env_new_page env = Ok tt ->
   events (chat_with_stepfun_ai env input_text)
   = acquisition ++ events (session env input_text)
     ++ [EvBrowserClose; EvPlaywrightStop] /\
   (env_close env = Ok tt -> env_stop env = Ok tt ->
    outcome (chat_with_stepfun_ai env input_text)
    = outcome (session env input_text))).
Proof.
  intros H1 H2. split; [exact (chat_ends_with_stop env input_text H1 H2)|].
  intros H3 H4 H5.
  assert (Ha : acquired env) by (repeat split; assumption).
  destruct (chat_split env input_text Ha) as [Hev Ho].
  split; [exact Hev|]. intros Hc Hs. now rewrite Ho, Hc, Hs.
Qed.

Lemma C8_browser_closed_on_every_path_witness :
  outcome (chat_with_stepfun_ai
             (Samples.env_of Samples.dom_no_input Samples.page_partial)
             (lit "hello"))
  = Raise (Exception msg_no_input) /\
  exists pre,
    events (chat_with_stepfun_ai
              (Samples.env_of Samples.dom_no_input Samples.page_partial)
              (lit "hello"))
    = pre ++ [EvBrowserClose; EvPlaywrightStop].
Proof.
  destruct (C8_browser_closed_on_every_path
              (Samples.env_of Samples.dom_no_input Samples.page_partial)
              (lit "hello")) as [_ Hrun].
  - reflexivity.
  - reflexivity.
  - destruct Hrun as [Hev Ho]; try reflexivity. split.
    + rewrite Ho; reflexivity.
    + eexists. rewrite Hev, app_assoc. reflexivity.
Defined.

(** The [try] statement begins after the page is opened: when opening the
    page raises, [browser.close()] is not called and only the exit of the
    [async with] block runs. *)
Remark new_page_failure_skips_close (env : Env) (input_text : pystr)
       (e : exn) :
  env_makedirs env = Ok tt -> env_playwright env = Ok tt ->
  env_launch env = Ok tt -> env_new_context env = Ok tt ->
  env_new_page env = Raise e ->
  events (chat_with_stepfun_ai env input_text)
  = acquisition ++ [EvPlaywrightStop].
Proof.
  intros H1 H2 H3 H4 H5. unfold chat_with_stepfun_ai, call, log.
  rewrite H1, H2, H3, H4, H5. cbn. now destruct (env_stop env).
Qed.

(** * Further properties *)

(** ** The polling loop, one iteration at a time *)

Lemma poll_raise (page : Page) (n i : nat) (prev : pystr) (e : exn) :
  outcome (loop_body page i prev) = Raise e ->
  poll page (S n) i prev = (events (loop_body page i prev), Raise e).
Proof.
  intros H. cbn [poll]. rewrite (surjective_M (bind _ _)).
  now rewrite (events_bind_raise _ _ _ H), (outcome_bind_raise _ _ _ H).
Qed.

(** The run of [S n] iterations: the first one, then what it leads to. *)
Lemma poll_unfold (page : Page) (n i : nat) (prev : pystr) :
  poll page (S n) i prev =
  (events (loop_body page i prev)
     ++ match outcome (loop_body page i prev) with
        | Ok (Next prev') => events (poll page n (S i) prev')
        | _ => []
        end,
   match outcome (loop_body page i prev) with
   | Ok (Next prev') => outcome (poll page n (S i) prev')
   | Ok (Return response) => Ok response
   | Raise e => Raise e
   end).
Proof.
  destruct (outcome (loop_body page i prev)) as [[r|prev']|e] eqn:Hb.
  - now rewrite (poll_return _ _ _ _ _ Hb), app_nil_r.
  - now rewrite (poll_next _ _ _ _ _ Hb).
  - now rewrite (poll_raise _ _ _ _ _ Hb), app_nil_r.
Qed.

Lemma strip_nil : strip [] = [].
Proof. reflexivity. Qed.

Lemma decide_return_inv (prev response r : pystr) :
  decide prev response = Return r ->
  r = response /\ contains marker_thinking response = false /\
  strip response <> [] /\ strip prev = strip response.
Proof.
  unfold decide. destruct (contains marker_thinking response); [discriminate|].
  destruct ((0 <? List.length (strip prev))%nat) eqn:Hl; [|discriminate].
  destruct (eqb (strip prev) (strip response)) eqn:He; [|discriminate].
  cbn [andb]. intros [= <-]. apply eqb_eq in He.
  repeat split; try assumption.
  rewrite <- He. now apply nonempty_length.
Qed.

Lemma loop_body_return_inv (page : Page) (i : nat) (prev r : pystr) :
  outcome (loop_body page i prev) = Ok (Return r) ->
  tk_wait (page i) = Ok tt /\ r = read page i /\ skipped page i = false /\
  strip r <> [] /\ strip prev = strip r.
Proof.
  intros H. destruct (loop_body_outcome _ _ _ _ H) as [Hw Hd].
  symmetry in Hd. destruct (decide_return_inv _ _ _ Hd) as [-> [Hc [Hn He]]].
  now repeat split.
Qed.

(** A [return] inside the loop is the result of the run. *)
Lemma run_returns_at (page : Page) (i : nat) (prev r : pystr) :
  (i < max_ticks)%nat ->
  stored_at page i = Some prev ->
  outcome (loop_body page i prev) = Ok (Return r) ->
  outcome (wait_for_ai_response page) = Ok r /\
  ticks_taken (wait_for_ai_response page) = S i.
Proof.
  intros Hi Hst Hb. unfold wait_for_ai_response.
  replace max_ticks with (i + S (max_ticks - S i))%nat by lia.
  destruct (poll_stored_after page i (S (max_ticks - S i)) 0 [] prev Hst)
    as [Ho [pre [He [Hl _]]]].
  rewrite Nat.add_0_r in Ho, He.
  rewrite (poll_return _ _ _ _ _ Hb) in Ho, He.
  cbn [outcome events fst snd] in *.
  split; [exact Ho|]. unfold ticks_taken. rewrite He.
  rewrite filter_app, length_app, Hl.
  fold (ticks_taken (loop_body page i prev)). rewrite loop_body_ticks. lia.
Qed.

(** X1: [page.wait_for_timeout] stands outside the [try] of the loop: when
    it raises at a tick the run has reached, the loop stops there with that
    exception; that wait is the last call of the loop and the number of
    waits is the index of the tick plus one. *)
Theorem wait_failure_stops_polling
  (page : Page) (i : nat) (prev : pystr) (e : exn) :
  (i < max_ticks)%nat ->
  stored_at page i = Some prev ->
  tk_wait (page i) = Raise e ->
  outcome (wait_for_ai_response page) = Raise e /\
  ticks_taken (wait_for_ai_response page) = S i /\
  exists pre,
    events (wait_for_ai_response page) = pre ++ [EvWaitForTimeout 1000].
Proof.
  intros Hi Hst Hw.
  pose proof (loop_body_raise page i prev e Hw) as Hb.
  assert (Hr : outcome (loop_body page i prev) = Raise e) by now rewrite Hb.
  unfold wait_for_ai_response.
  replace max_ticks with (i + S (max_ticks - S i))%nat by lia.
  destruct (poll_stored_after page i (S (max_ticks - S i)) 0 [] prev Hst)
    as [Ho [pre [He [Hl _]]]].
  rewrite Nat.add_0_r in Ho, He.
  rewrite (poll_raise _ _ _ _ _ Hr) in Ho, He.
  cbn [outcome events fst snd] in Ho, He. rewrite Hb in He.
  cbn [events fst] in He.
  split; [exact Ho|]. unfold ticks_taken. rewrite He. split.
  - rewrite filter_app, length_app, Hl. cbn. lia.
  - now exists pre.
Qed.

Lemma wait_failure_stops_polling_witness :
  outcome (wait_for_ai_response Cases.page_closing)
  = Raise (PlaywrightError (lit "Target closed")) /\
  ticks_taken (wait_for_ai_response Cases.page_closing) = 3%nat.
Proof.
  assert (Hst : stored_at Cases.page_closing 2 = Some (lit "partial"))
    by (vm_compute; reflexivity).
  destruct (wait_failure_stops_polling Cases.page_closing 2 (lit "partial")
              (PlaywrightError (lit "Target closed")))
    as [Ho [Ht _]].
  - unfold max_ticks. lia.
  - exact Hst.
  - reflexivity.
  - split; [exact Ho | exact Ht].
Defined.

Lemma loop_body_raise_inv (page : Page) (i : nat) (prev : pystr) (e : exn) :
  outcome (loop_body page i prev) = Raise e ->
  loop_body page i prev = ([EvWaitForTimeout 1000], Raise e).
Proof.
  destruct (tk_wait (page i)) as [[]|e'] eqn:Hw.
  - rewrite (loop_body_eq _ _ _ Hw). discriminate.
  - rewrite (loop_body_raise _ _ _ _ Hw). now intros [= ->].
Qed.

(** A run that logs the completion returned from inside the loop. *)
Lemma poll_done_inv (page : Page) (n i : nat) (prev : pystr) :
  In (EvLog LogReplyDone) (events (poll page n i prev)) ->
  exists k q r,
    (k < n)%nat /\ stored_after page k i prev = Some q /\
    outcome (loop_body page (k + i) q) = Ok (Return r) /\
    outcome (poll page n i prev) = Ok r.
Proof.
  revert i prev. induction n as [|n IH]; intros i prev.
  - cbn. intros [H | []]. discriminate.
  - rewrite poll_unfold. cbn [events outcome fst snd].
    destruct (outcome (loop_body page i prev)) as [[r|prev']|e] eqn:Hb.
    + intros _. exists 0%nat, prev, r. repeat split; [lia | exact Hb].
    + intros Hin. apply in_app_or in Hin as [Hin | Hin].
      * now apply (loop_body_next_quiet _ _ _ _ Hb) in Hin.
      * destruct (IH _ _ Hin) as [k [q [r [Hk [Hst [Hr Ho]]]]]].
        exists (S k), q, r. repeat split; [lia | | | exact Ho].
        -- now rewrite stored_after_S, Hb.
        -- now replace (S k + i)%nat with (k + S i)%nat by lia.
    + rewrite (loop_body_raise_inv _ _ _ _ Hb). cbn.
      intros [H | []]. discriminate.
Qed.

Lemma observations_S (page : Page) (i : nat) :
  observations page (S i)
  = observations page i ++ (if skipped page i then [] else [read page i]).
Proof.
  unfold observations. rewrite seq_S, filter_app, map_app. cbn.
  now destruct (skipped page i).
Qed.

(** The last observation is the text of the last tick that is not skipped. *)
Lemma last_observation (page : Page) (i : nat) :
  observations page i = [] \/
  exists j, (j < i)%nat /\ skipped page j = false /\
            last (observations page i) [] = read page j /\
            forall k, (j < k < i)%nat -> skipped page k = true.
Proof.
  induction i as [|i IH]; [now left|].
  rewrite observations_S. destruct (skipped page i) eqn:Hs.
  - rewrite app_nil_r. destruct IH as [IH | [j [Hj [Hsj [Hl Hk]]]]].
    + now left.
    + right. exists j. repeat split; [lia | exact Hsj | exact Hl |].
      intros k Hr. destruct (Nat.eq_dec k i) as [-> | Hne]; [exact Hs|].
      apply Hk. lia.
  - right. exists i. repeat split; [lia | exact Hs | apply last_last |].
    intros k Hr. lia.
Qed.

(** X2: a run that declares completion returned the text of some tick [i]
    that was not skipped, and an earlier tick [j], not skipped either, had
    read the same text up to surrounding white space, with every tick in
    between skipped; so a completion takes at least two ticks. *)
Theorem completion_means_agreement (page : Page) :
  In (EvLog LogReplyDone) (events (wait_for_ai_response page)) ->
  exists i j r,
    (j < i < max_ticks)%nat /\
    outcome (wait_for_ai_response page) = Ok r /\
    ticks_taken (wait_for_ai_response page) = S i /\
    r = read page i /\ skipped page i = false /\ skipped page j = false /\
    strip r <> [] /\ strip (read page j) = strip r /\
    forall k, (j < k < i)%nat -> skipped page k = true.
Proof.
  unfold wait_for_ai_response at 1. intros Hin.
  destruct (poll_done_inv _ _ _ _ Hin) as [i [q [r [Hi [Hst [Hb Ho]]]]]].
  rewrite Nat.add_0_r in Hb.
  destruct (loop_body_return_inv _ _ _ _ Hb) as [_ [Hr [Hs [Hne Heq]]]].
  pose proof (stored_after_last page i 0 [] q Hst) as Hq.
  fold (observations page i) in Hq.
  destruct (last_observation page i) as [Hnil | [j [Hj [Hsj [Hl Hk]]]]].
  - rewrite Hnil in Hq. cbn in Hq. subst q. rewrite strip_nil in Heq.
    congruence.
  - exists i, j, r. rewrite Hl in Hq. subst q.
    destruct (run_returns_at page i (read page j) r Hi Hst Hb) as [_ Ht].
    repeat split; try assumption; lia.
Qed.

Lemma completion_means_agreement_witness :
  exists i j r,
    (j < i < max_ticks)%nat /\
    outcome (wait_for_ai_response Samples.page_partial) = Ok r /\
    ticks_taken (wait_for_ai_response Samples.page_partial) = S i.
Proof.
  destruct (completion_means_agreement Samples.page_partial)
    as [i [j [r [Hij [Ho [Ht _]]]]]].
  - vm_compute. tauto.
  - exists i, j, r. repeat split; assumption || apply Hij.
Defined.

(** The two invariants of the stored observation and of the result. *)
Lemma poll_reply (page : Page) (n i : nat) (prev s : pystr) :
  contains marker_thinking prev = false ->
  outcome (poll page n i prev) = Ok s ->
  s <> [] /\ contains marker_thinking s = false.
Proof.
  revert i prev. induction n as [|n IH]; intros i prev Hp.
  - cbn. intros [= <-]. destruct prev as [|c t]; cbn [truthy].
    + split; [discriminate | reflexivity].
    + split; [discriminate | exact Hp].
  - rewrite poll_unfold. cbn [outcome snd].
    destruct (outcome (loop_body page i prev)) as [[r|prev']|e] eqn:Hb.
    + intros [= <-].
      destruct (loop_body_return_inv _ _ _ _ Hb) as [_ [Hr [Hs [Hne _]]]].
      split; [intros ->; now apply Hne | now rewrite Hr].
    + apply IH. destruct (loop_body_outcome _ _ _ _ Hb) as [_ Hd].
      symmetry in Hd.
      destruct (decide_next _ _ _ Hd) as [[_ ->] | [Hc ->]]; assumption.
    + discriminate.
Qed.

(** X3: whatever the page shows, a reply returned by the polling loop is
    never the empty string. *)
Theorem reply_is_never_empty (page : Page) (s : pystr) :
  outcome (wait_for_ai_response page) = Ok s -> s <> [].
Proof. intros H. now apply (poll_reply page max_ticks 0 [] s). Qed.

Lemma reply_is_never_empty_witness :
  lit " partial " <> [].
Proof.
  apply (reply_is_never_empty Samples.page_partial).
  vm_compute. reflexivity.
Defined.

(** X4: a reply returned by the polling loop never contains the in-progress
    marker, on completion as on time-out. *)
Theorem reply_is_never_interim (page : Page) (s : pystr) :
  outcome (wait_for_ai_response page) = Ok s ->
  contains marker_thinking s = false.
Proof. intros H. now apply (poll_reply page max_ticks 0 [] s). Qed.

Lemma reply_is_never_interim_witness :
  contains marker_thinking [1864%N] = false.
Proof.
  assert (H : outcome (wait_for_ai_response Samples.page_counting)
              = Ok [1864%N]) by (vm_compute; reflexivity).
  exact (reply_is_never_interim Samples.page_counting [1864%N] H).
Defined.

(** ** Budget and calls of the polling loop *)

Lemma loop_body_reads (page : Page) (i : nat) (prev : pystr) :
  (reads_taken (loop_body page i prev) <= 1)%nat.
Proof.
  unfold reads_taken.
  destruct (tk_wait (page i)) as [[]|e] eqn:Hw.
  - rewrite (loop_body_eq _ _ _ Hw), get_ai_response_eq. cbn.
    rewrite filter_app. cbn.
    destruct (tk_text (page i)); cbn; lia.
  - rewrite (loop_body_raise _ _ _ _ Hw). cbn. lia.
Qed.

Lemma loop_body_passive (page : Page) (i : nat) (prev : pystr) :
  forallb passive (events (loop_body page i prev)) = true.
Proof.
  destruct (tk_wait (page i)) as [[]|e] eqn:Hw.
  - rewrite (loop_body_eq _ _ _ Hw), get_ai_response_eq. cbn.
    rewrite forallb_app. cbn. now destruct (tk_text (page i)).
  - now rewrite (loop_body_raise _ _ _ _ Hw).
Qed.

Lemma poll_budget (page : Page) (n i : nat) (prev : pystr) :
  (ticks_taken (poll page n i prev) <= n)%nat /\
  (reads_taken (poll page n i prev) <= ticks_taken (poll page n i prev))%nat.
Proof.
  revert i prev. induction n as [|n IH]; intros i prev.
  - cbn. lia.
  - unfold ticks_taken, reads_taken. rewrite poll_unfold. cbn [events fst].
    rewrite !filter_app, !length_app.
    pose proof (loop_body_ticks page i prev) as Ht.
    pose proof (loop_body_reads page i prev) as Hr.
    unfold ticks_taken, reads_taken in Ht, Hr.
    destruct (outcome (loop_body page i prev)) as [[r|prev']|e].
    + cbn [filter List.length]. lia.
    + destruct (IH (S i) prev') as [H1 H2].
      unfold ticks_taken, reads_taken in H1, H2. lia.
    + cbn [filter List.length]. lia.
Qed.

(** X5: the loop never waits more than 1800 times, and it reads the
    response region at most once per wait. *)
Theorem polling_stays_within_budget (page : Page) :
  (ticks_taken (wait_for_ai_response page) <= 1800)%nat /\
  (reads_taken (wait_for_ai_response page)
   <= ticks_taken (wait_for_ai_response page))%nat.
Proof. exact (poll_budget page max_ticks 0 []). Qed.

Lemma poll_passive (page : Page) (n i : nat) (prev : pystr) :
  forallb passive (events (poll page n i prev)) = true.
Proof.
  revert i prev. induction n as [|n IH]; intros i prev; [reflexivity|].
  rewrite poll_unfold. cbn [events fst].
  rewrite forallb_app, loop_body_passive.
  destruct (outcome (loop_body page i prev)) as [[r|prev']|e];
    [reflexivity | apply IH | reflexivity].
Qed.

(** X6: while it polls the run only waits, reads the response region and
    logs: it never clicks, types, queries the document or closes
    anything. *)
Theorem polling_is_passive (page : Page) :
  forallb passive (events (wait_for_ai_response page)) = true /\
  (forall id, ~ In (EvClick id) (events (wait_for_ai_response page))) /\
  (forall id text,
      ~ In (EvFill id text) (events (wait_for_ai_response page))).
Proof.
  pose proof (poll_passive page max_ticks 0 []) as H.
  fold (wait_for_ai_response page) in H. split; [exact H|].
  rewrite forallb_forall in H.
  split; intros; intros Hin; now apply H in Hin.
Qed.

(** ** Runs that cannot complete, and ticks that do not count *)

Lemma run_times_out (page : Page) (prev : pystr) :
  stored_at page max_ticks = Some prev ->
  outcome (wait_for_ai_response page)
  = Ok (if truthy prev then prev else msg_timeout) /\
  ticks_taken (wait_for_ai_response page) = max_ticks /\
  ~ In (EvLog LogReplyDone) (events (wait_for_ai_response page)).
Proof.
  intros Hst. unfold wait_for_ai_response.
  destruct (poll_stored_after page max_ticks 0 0 [] prev Hst)
    as [Ho [pre [He [Hl Hn]]]].
  rewrite Nat.add_0_r in Ho, He.
  cbn [poll] in Ho, He. cbn [log bind ret outcome events fst snd app] in Ho, He.
  split; [exact Ho|]. unfold ticks_taken. rewrite He. split.
  - rewrite filter_app, length_app, Hl. apply Nat.add_0_r.
  - intros Hin. apply in_app_or in Hin as [Hin | [Hin | []]];
      [now apply Hn | discriminate].
Qed.

Lemma decide_blank (prev response : pystr) :
  strip prev = [] -> strip response = [] ->
  exists q, decide prev response = Next q /\ strip q = [].
Proof.
  intros Hp Hr. unfold decide.
  destruct (contains marker_thinking response).
  - now exists prev.
  - rewrite Hp. cbn. now exists response.
Qed.

Lemma stored_after_blank (page : Page) (k i : nat) (prev : pystr) :
  (forall j, (i <= j < i + k)%nat ->
             tk_wait (page j) = Ok tt /\ strip (read page j) = []) ->
  strip prev = [] ->
  exists q, stored_after page k i prev = Some q /\ strip q = [].
Proof.
  revert i prev. induction k as [|k IH]; intros i prev Hall Hp.
  - now exists prev.
  - destruct (Hall i) as [Hw Hr]; [lia|].
    destruct (decide_blank prev (read page i) Hp Hr) as [q [Hd Hq]].
    rewrite stored_after_S, (loop_body_eq _ _ _ Hw). cbn [outcome snd].
    rewrite Hd. apply IH; [|exact Hq].
    intros j Hj. apply Hall. lia.
Qed.

(** X7: a page whose text stays empty or blank never completes the run:
    all 1800 ticks are taken and the run ends by the time-out, with a blank
    stored observation. *)
Theorem blank_page_runs_out_the_budget (page : Page) :
  (forall i, (i < max_ticks)%nat ->
             tk_wait (page i) = Ok tt /\ strip (read page i) = []) ->
  exists prev,
    stored_at page max_ticks = Some prev /\ strip prev = [] /\
    outcome (wait_for_ai_response page)
    = Ok (if truthy prev then prev else msg_timeout) /\
    ticks_taken (wait_for_ai_response page) = max_ticks /\
    ~ In (EvLog LogReplyDone) (events (wait_for_ai_response page)).
Proof.
  intros Hall.
  destruct (stored_after_blank page max_ticks 0 []) as [q [Hst Hq]].
  - intros j Hj. apply Hall. lia.
  - reflexivity.
  - exists q. split; [exact Hst|]. split; [exact Hq|].
    exact (run_times_out page q Hst).
Qed.

Lemma blank_page_runs_out_the_budget_witness :
  exists prev,
    strip prev = [] /\
    outcome (wait_for_ai_response Cases.page_blank)
    = Ok (if truthy prev then prev else msg_timeout).
Proof.
  destruct (blank_page_runs_out_the_budget Cases.page_blank)
    as [prev [_ [Hs [Ho _]]]].
  - intros i _. unfold Cases.page_blank, read.
    destruct (Nat.even i); split; reflexivity.
  - exists prev. split; [exact Hs | exact Ho].
Defined.

Lemma stored_at_skips (page : Page) (i m : nat) (prev : pystr) :
  stored_at page i = Some prev ->
  (forall k, (i <= k < i + m)%nat ->
             tk_wait (page k) = Ok tt /\ skipped page k = true) ->
  stored_at page (i + m) = Some prev.
Proof.
  intros Hst. induction m as [|m IH]; intros Hall.
  - now rewrite Nat.add_0_r.
  - rewrite Nat.add_succ_r. unfold stored_at in *.
    rewrite stored_after_snoc, IH by (intros k Hk; apply Hall; lia).
    destruct (Hall (i + m)%nat) as [Hw Hs]; [lia|].
    rewrite Nat.add_0_r, (loop_body_eq _ _ _ Hw). cbn [outcome snd].
    unfold decide. unfold skipped in Hs. now rewrite Hs.
Qed.

(** X8: skipped ticks do not count: when the ticks from [i] up to [j] all
    show the in-progress marker, and tick [j] reads a text equal, up to
    surrounding white space, to the non-blank observation stored before
    tick [i], the run completes at tick [j] with the text of tick [j]. *)
Theorem skipped_ticks_do_not_reset
  (page : Page) (i j : nat) (prev : pystr) :
  stored_at page i = Some prev ->
  (i <= j < max_ticks)%nat ->
  (forall k, (i <= k < j)%nat ->
             tk_wait (page k) = Ok tt /\ skipped page k = true) ->
  tk_wait (page j) = Ok tt ->
  skipped page j = false ->
  strip (read page j) <> [] ->
  strip (read page j) = strip prev ->
  stored_at page j = Some prev /\
  outcome (wait_for_ai_response page) = Ok (read page j) /\
  ticks_taken (wait_for_ai_response page) = S j.
Proof.
  intros Hst Hij Hskip Hw Hs Hne Heq.
  assert (Hj : stored_at page j = Some prev).
  { replace j with (i + (j - i))%nat by lia.
    apply stored_at_skips; [exact Hst|]. intros k Hk. apply Hskip. lia. }
  split; [exact Hj|].
  apply (run_returns_at page j prev); [lia | exact Hj |].
  rewrite (loop_body_eq _ _ _ Hw). cbn [outcome snd].
  now rewrite decide_return.
Qed.

Lemma skipped_ticks_do_not_reset_witness :
  outcome (wait_for_ai_response Cases.page_interrupted) = Ok (lit "done ")
  /\ ticks_taken (wait_for_ai_response Cases.page_interrupted) = 4%nat.
Proof.
  assert (Hst : stored_at Cases.page_interrupted 1 = Some (lit "done"))
    by (vm_compute; reflexivity).
  destruct (skipped_ticks_do_not_reset Cases.page_interrupted 1 3
              (lit "done") Hst) as [_ [Ho Ht]].
  - unfold max_ticks. lia.
  - intros k Hk. assert (Hc : k = 1%nat \/ k = 2%nat) by lia.
    destruct Hc as [-> | ->]; split; reflexivity.
  - reflexivity.
  - reflexivity.
  - vm_compute. discriminate.
  - vm_compute. reflexivity.
  - split; [exact Ho | exact Ht].
Defined.

(** ** The run as a whole *)

Lemma bind_assoc {A B C} (m : M A) (f : A -> M B) (g : B -> M C) :
  bind (bind m f) g = bind m (fun x => bind (f x) g).
Proof.
  destruct m as [t [a|e]]; [|reflexivity]. cbn.
  destruct (f a) as [t1 [b|e1]]; [|reflexivity]. cbn.
  destruct (g b) as [t2 r]. now rewrite app_assoc.
Qed.

Lemma bind_ext {A B} (m : M A) (f g : A -> M B) :
  (forall x, f x = g x) -> bind m f = bind m g.
Proof.
  intros H. destruct m as [t [a|e]]; [|reflexivity]. cbn. now rewrite H.
Qed.

Lemma outcome_bind_inv {A B} (m : M A) (k : A -> M B) (b : B) :
  outcome (bind m k) = Ok b ->
  exists a, outcome m = Ok a /\ outcome (k a) = Ok b.
Proof.
  destruct m as [t [a|e]]; [|discriminate]. cbn.
  intros H. exists a. split; [reflexivity|]. now destruct (k a).
Qed.

Lemma quiet_bind {A B} (m : M A) (k : A -> M B) :
  quiet (events m) = true ->
  (forall a, quiet (events (k a)) = true) ->
  quiet (events (bind m k)) = true.
Proof.
  intros Hm Hk. destruct m as [t [a|e]]; [|exact Hm].
  specialize (Hk a). cbn [bind]. destruct (k a) as [t' r].
  cbn [events fst] in *. now rewrite quiet_app, Hm, Hk.
Qed.

(** The [try] body is its preparation followed by the polling. *)
Lemma session_setup (env : Env) (input_text : pystr) :
  session env input_text
  = (setup env input_text ;; wait_for_ai_response (env_page env)).
Proof.
  unfold session, setup. rewrite bind_assoc. apply bind_ext. intros _.
  rewrite bind_assoc. apply bind_ext. intros _.
  now rewrite bind_assoc.
Qed.

Lemma setup_quiet (env : Env) (input_text : pystr) :
  quiet (events (setup env input_text)) = true.
Proof.
  unfold setup.
  apply quiet_bind; [apply navigate_quiet | intros _].
  apply quiet_bind; [apply enter_query_quiet | intros _].
  apply quiet_bind; [apply find_buttons_quiet | intros buttons].
  apply submit_quiet.
Qed.

(** X9: when the page was opened, prepared and the chat button clicked,
    and the shutdown succeeds, the run returns or raises exactly what the
    polling loop does; its calls are the acquisition, the preparation, the
    polling, then the closing of the browser and of Playwright. *)
Theorem run_ends_as_polling_ends (env : Env) (input_text : pystr) :
  acquired env -> released env ->
  outcome (setup env input_text) = Ok tt ->
  outcome (chat_with_stepfun_ai env input_text)
  = outcome (wait_for_ai_response (env_page env)) /\
  events (chat_with_stepfun_ai env input_text)
  = acquisition ++ events (setup env input_text)
    ++ events (wait_for_ai_response (env_page env))
    ++ [EvBrowserClose; EvPlaywrightStop].
Proof.
  intros Ha Hr Hs.
  rewrite (chat_outcome env input_text Ha Hr).
  destruct (chat_split env input_text Ha) as [-> _].
  rewrite session_setup.
  rewrite (outcome_bind_ok _ _ _ Hs), (events_bind_ok _ _ _ Hs).
  split; [reflexivity|]. now rewrite <- !app_assoc.
Qed.

Lemma run_ends_as_polling_ends_witness :
  outcome (chat_with_stepfun_ai
             (Samples.env_of Samples.dom_chat Samples.page_partial)
             (lit "hello"))
  = outcome (wait_for_ai_response Samples.page_partial).
Proof.
  apply (run_ends_as_polling_ends
           (Samples.env_of Samples.dom_chat Samples.page_partial)
           (lit "hello")).
  - repeat split.
  - split; reflexivity.
  - vm_compute. reflexivity.
Defined.

(** X10: an exception raised while the browser is closed, or while
    Playwright is stopped, replaces the result of the run, be it a reply or
    another exception. *)
Theorem shutdown_failure_replaces_result
  (env : Env) (input_text : pystr) (e : exn) :
  acquired env ->
  (env_stop env = Raise e \/
   (env_stop env = Ok tt /\ env_close env = Raise e)) ->
  outcome (chat_with_stepfun_ai env input_text) = Raise e.
Proof.
  intros Ha H. destruct (chat_split env input_text Ha) as [_ ->].
  destruct H as [-> | [-> ->]]; reflexivity.
Qed.

Lemma shutdown_failure_replaces_result_witness :
  outcome (session Cases.env_close_fails (lit "hello")) = Ok (lit "a") /\
  outcome (chat_with_stepfun_ai Cases.env_close_fails (lit "hello"))
  = Raise (PlaywrightError (lit "Browser closed")).
Proof.
  split; [vm_compute; reflexivity|].
  apply (shutdown_failure_replaces_result Cases.env_close_fails (lit "hello")).
  - repeat split.
  - right. split; reflexivity.
Defined.

(** X11: any exception raised before the polling (navigation, mode button,
    input field, enumeration or click of the buttons) ends the run with that
    same exception: nothing is retried and the response region is never
    waited for nor read. *)
Theorem setup_failure_is_fatal
  (env : Env) (input_text : pystr) (e : exn) :
  acquired env -> released env ->
  outcome (setup env input_text) = Raise e ->
  outcome (chat_with_stepfun_ai env input_text) = Raise e /\
  events (chat_with_stepfun_ai env input_text)
  = acquisition ++ events (setup env input_text)
    ++ [EvBrowserClose; EvPlaywrightStop] /\
  ticks_taken (chat_with_stepfun_ai env input_text) = 0%nat /\
  reads_taken (chat_with_stepfun_ai env input_text) = 0%nat.
Proof.
  intros Ha Hr Hs.
  assert (Hev : events (session env input_text)
                = events (setup env input_text))
    by (rewrite session_setup; exact (events_bind_raise _ _ _ Hs)).
  assert (Hq : quiet (events (session env input_text)) = true)
    by (rewrite Hev; apply setup_quiet).
  rewrite (chat_outcome env input_text Ha Hr).
  split; [rewrite session_setup; exact (outcome_bind_raise _ _ _ Hs)|].
  destruct (chat_split env input_text Ha) as [Hc _].
  split; [now rewrite Hc, Hev|].
  split; [exact (proj1 (chat_quiet env input_text Ha Hq))|].
  unfold reads_taken. rewrite Hc, Hev, !filter_app, !length_app.
  pose proof (setup_quiet env input_text) as Hsq.
  assert (Hz : forall t, quiet t = true ->
                         List.length (filter is_read t) = 0%nat).
  { induction t as [|x t IH]; [reflexivity|]. cbn [quiet forallb].
    intros H. apply andb_true_iff in H as [Hx Ht]. cbn [filter].
    destruct x; try (now apply IH); discriminate. }
  now rewrite (Hz _ Hsq).
Qed.

Lemma setup_failure_is_fatal_witness :
  outcome (chat_with_stepfun_ai Cases.env_unreachable (lit "hello"))
  = Raise (PlaywrightError (lit "net::ERR_NAME_NOT_RESOLVED")).
Proof.
  apply (setup_failure_is_fatal Cases.env_unreachable (lit "hello")).
  - repeat split.
  - split; reflexivity.
  - reflexivity.
Defined.

(** ** The scan and the click *)

Lemma scan_buttons_text_only (l : list Element) (i w v : Z) :
  forallb is_text_read (events (scan_buttons l i w v)) = true.
Proof.
  revert i w v. induction l as [|b rest IH]; intros i w v; [reflexivity|].
  destruct (el_text_content b) as [[s|]|e] eqn:Hs.
  - rewrite (scan_buttons_cons _ _ _ _ _ _ Hs). cbn [events fst forallb].
    destruct (is_web b); [|destruct (is_video b)]; apply IH.
  - cbn [scan_buttons]. unfold text_content, call, py_in. now rewrite Hs.
  - cbn [scan_buttons]. unfold text_content, call. now rewrite Hs.
Qed.

Lemma scan_never_clicks (l : list Element) (i w v : Z) (id : nat) :
  ~ In (EvClick id) (events (scan_buttons l i w v)).
Proof.
  intros Hin. pose proof (scan_buttons_text_only l i w v) as H.
  rewrite forallb_forall in H. now apply H in Hin.
Qed.

(** X12: whatever button is clicked to submit, it is the button right after
    the last one whose text contains the left marker, and its own text does
    not contain the left marker. *)
Theorem clicked_button_follows_left_marker
  (buttons : list Element) (id : nat) :
  In (EvClick id) (events (submit buttons)) ->
  exists w b,
    w <> (-1)%Z /\ last_index_of (text_has marker_web) buttons w /\
    nth_error buttons (Z.to_nat (w + 1)) = Some b /\
    el_id b = id /\ text_has marker_web b = false.
Proof.
  intros Hin.
  destruct (outcome (scan_buttons buttons 0 (-1) (-1))) as [[w v]|e] eqn:Ho.
  - destruct (Z.eq_dec w (-1)) as [Hw | Hw];
      [|destruct (Z.eq_dec v (-1)) as [Hv | Hv]].
    + exfalso. revert Hin. unfold submit.
      rewrite (events_bind_ok _ _ _ Ho). subst w. cbn.
      rewrite app_nil_r. apply scan_never_clicks.
    + exfalso. revert Hin. unfold submit.
      rewrite (events_bind_ok _ _ _ Ho). subst v.
      rewrite Z.eqb_refl, orb_true_r. cbn. rewrite app_nil_r.
      apply scan_never_clicks.
    + destruct (submit_between buttons w v Ho Hw Hv) as [Rw [Rv Hs]].
      pose proof (scan_buttons_inv _ _ _ _ _ Ho) as Ht.
      destruct (scan_result buttons Ht) as [w' [v' [Hsc [Hlw _]]]].
      rewrite Hsc in Ho. injection Ho as <- <-.
      rewrite Hs in Hin. cbn [events fst] in Hin.
      apply in_app_or in Hin as [Hin | Hin];
        [now apply scan_never_clicks in Hin|].
      destruct (Z.le_gt_cases v' (w' + 1)) as [Hle | Hgt].
      * rewrite (slice_empty buttons (w' + 1) v') in Hin by lia.
        destruct Hin.
      * destruct (slice_head buttons (w' + 1) v') as [b [l [Hb Hsl]]];
          try lia.
        rewrite Hsl in Hin. exists w', b.
        split; [exact Hw|]. split; [exact Hlw|]. split; [exact Hb|].
        split.
        -- destruct Hin as [[= <-] | Hin]; [reflexivity|].
           destruct (el_click b); [destruct Hin as [H | []]|destruct Hin].
           discriminate.
        -- destruct Hlw as [[-> _] | [n [b0 [-> [_ [_ Hlast]]]]]];
             [contradiction|].
           apply (Hlast (S n)); [lia|].
           now replace (S n) with (Z.to_nat (Z.of_nat n + 1)) by lia.
  - exfalso. revert Hin. unfold submit.
    rewrite (events_bind_raise _ _ _ Ho). apply scan_never_clicks.
Qed.

Lemma clicked_button_follows_left_marker_witness :
  exists w b,
    w <> (-1)%Z /\
    nth_error Cases.buttons_two_videos (Z.to_nat (w + 1)) = Some b /\
    el_id b = 2%nat.
Proof.
  destruct (clicked_button_follows_left_marker Cases.buttons_two_videos 2)
    as [w [b [Hw [_ [Hb [Hid _]]]]]].
  - vm_compute. tauto.
  - exists w, b. repeat split; assumption.
Defined.

Lemma scan_buttons_app (before rest : list Element) (i w v : Z) :
  Forall has_text before ->
  scan_buttons (before ++ rest) i w v =
  let r := scan_indices before i w v in
  let m := scan_buttons rest (i + Z.of_nat (List.length before))
             (fst r) (snd r) in
  (map (fun b => EvTextContent (el_id b)) before ++ events m, outcome m).
Proof.
  intros H. revert i w v.
  induction H as [|b l [s Hs] _ IH]; intros i w v.
  - cbn. rewrite Z.add_0_r. now destruct (scan_buttons rest i w v).
  - cbn [app]. rewrite (scan_buttons_cons _ _ _ _ _ _ Hs).
    cbn [scan_indices map List.length app].
    replace (i + Z.of_nat (S (List.length l)))%Z
      with (i + 1 + Z.of_nat (List.length l))%Z by lia.
    destruct (is_web b); [|destruct (is_video b)]; now rewrite IH.
Qed.

(** X13: a button whose [text_content()] is [None] makes the membership
    test raise [TypeError]: the run stops at that button, after reading the
    texts up to it, without a click, and the exception is not one of the
    control-not-found exceptions. *)
Theorem textless_button_raises_type_error
  (before after : list Element) (b : Element) :
  Forall has_text before ->
  el_text_content b = Ok None ->
  outcome (submit (before ++ b :: after)) = Raise TypeError /\
  events (submit (before ++ b :: after))
  = map (fun x => EvTextContent (el_id x)) (before ++ [b]) /\
  ControlNotFoundError TypeError = false.
Proof.
  intros Hb Hn.
  pose proof (scan_buttons_app before (b :: after) 0 (-1) (-1) Hb) as Hs.
  cbv zeta in Hs. cbn [scan_buttons] in Hs.
  unfold text_content, call, py_in in Hs. rewrite Hn in Hs.
  cbn [bind raise events outcome fst snd app] in Hs.
  unfold submit. rewrite Hs. cbn [bind events outcome fst snd].
  rewrite map_app. repeat split.
Qed.

Lemma textless_button_raises_type_error_witness :
  outcome (submit Cases.buttons_textless) = Raise TypeError.
Proof.
  apply (textless_button_raises_type_error
           [Samples.element 1 TButton (lit "联网")]
           [Samples.element 3 TButton (lit "视频创作")]).
  - repeat constructor. eexists. reflexivity.
  - reflexivity.
Defined.

(** X14: the scan has no early exit: when every text can be read, the
    text of each button is read exactly once, in document order, wherever
    the markers stand, and no text is read after that. *)
Theorem scan_reads_every_button_once (buttons : list Element) :
  Forall has_text buttons ->
  exists t,
    events (submit buttons)
    = map (fun b => EvTextContent (el_id b)) buttons ++ t /\
    forall id, ~ In (EvTextContent id) t.
Proof.
  intros H. destruct (scan_result buttons H) as [w [v [Hs _]]].
  unfold submit. rewrite Hs. cbn [bind].
  destruct ((w =? -1)%Z || (v =? -1)%Z).
  - exists []. split; [reflexivity | intros id []].
  - destruct (slice buttons (w + 1) v) as [|b l].
    + exists []. split; [reflexivity | intros id []].
    + unfold click, call, log. destruct (el_click b) as [[]|e]; cbn.
      * eexists. split; [reflexivity|].
        intros id [Hin | [Hin | []]]; discriminate.
      * eexists. split; [reflexivity|].
        intros id [Hin | []]; discriminate.
Qed.

Lemma scan_reads_every_button_once_witness :
  exists t,
    events (submit Samples.buttons_mixed)
    = [EvTextContent 0; EvTextContent 1; EvTextContent 2; EvTextContent 3;
       EvTextContent 4; EvTextContent 5] ++ t.
Proof.
  destruct (scan_reads_every_button_once Samples.buttons_mixed)
    as [t [Hev _]].
  - repeat constructor; eexists; reflexivity.
  - exists t. exact Hev.
Defined.

(** ** Replies that reach the caller *)

Lemma chat_ok_inv (env : Env) (input_text s : pystr) :
  outcome (chat_with_stepfun_ai env input_text) = Ok s ->
  acquired env /\ released env /\ outcome (session env input_text) = Ok s.
Proof.
  unfold chat_with_stepfun_ai, call, log, acquired, released.
  destruct (env_makedirs env) as [[]|]; [|discriminate].
  destruct (env_playwright env) as [[]|]; [|discriminate].
  destruct (env_launch env) as [[]|];
    [|destruct (env_stop env); discriminate].
  destruct (env_new_context env) as [[]|];
    [|destruct (env_stop env); discriminate].
  destruct (env_new_page env) as [[]|];
    [|destruct (env_stop env); discriminate].
  destruct (session env input_text) as [t r].
  destruct (env_close env) as [[]|], (env_stop env) as [[]|];
    cbn; intros H; try discriminate H.
  now repeat split.
Qed.

Lemma chat_reply (env : Env) (input_text s : pystr) :
  outcome (chat_with_stepfun_ai env input_text) = Ok s ->
  s <> [] /\ contains marker_thinking s = false /\
  outcome (setup env input_text) = Ok tt /\
  outcome (wait_for_ai_response (env_page env)) = Ok s /\
  exists pre,
    events (chat_with_stepfun_ai env input_text)
    = pre ++ [EvBrowserClose; EvPlaywrightStop].
Proof.
  intros H. destruct (chat_ok_inv env input_text s H) as [Ha [Hr Hs]].
  rewrite session_setup in Hs.
  destruct (outcome_bind_inv _ _ _ Hs) as [[] [Hset Hw]].
  destruct (poll_reply (env_page env) max_ticks 0 [] s eq_refl Hw)
    as [Hne Hm].
  repeat split; try assumption.
  destruct (chat_split env input_text Ha) as [-> _].
  eexists. now rewrite !app_assoc.
Qed.

(** X15: a reply that [chat_with_stepfun_ai] returns is the one the polling
    loop returned; it is never empty and never contains the in-progress
    marker, and by then the query was typed, the chat button clicked and the
    browser closed. *)
Theorem returned_reply_is_well_formed (env : Env) (input_text s : pystr) :
  outcome (chat_with_stepfun_ai env input_text) = Ok s ->
  s <> [] /\ contains marker_thinking s = false /\
  outcome (setup env input_text) = Ok tt /\
  outcome (wait_for_ai_response (env_page env)) = Ok s /\
  exists pre,
    events (chat_with_stepfun_ai env input_text)
    = pre ++ [EvBrowserClose; EvPlaywrightStop].
Proof. exact (chat_reply env input_text s). Qed.

Lemma returned_reply_is_well_formed_witness :
  outcome (setup (Samples.env_of Samples.dom_chat Samples.page_partial)
             (lit "hello")) = Ok tt.
Proof.
  destruct (returned_reply_is_well_formed
              (Samples.env_of Samples.dom_chat Samples.page_partial)
              (lit "hello") (lit " partial ")) as [_ [_ [Hs _]]].
  - vm_compute. reflexivity.
  - exact Hs.
Defined.

(** X16: [main] never raises: it returns [None] exactly when the run
    raised, after logging that exception, and otherwise the reply of the
    run, which is then never empty, after logging it; the browser was
    closed in that case. *)
Theorem main_returns_reply_or_none (env : Env) :
  match snd (main env) with
  | Some s =>
      outcome (chat_with_stepfun_ai env sample_query) = Ok s /\
      s <> [] /\
      In (Run EvBrowserClose) (fst (main env)) /\
      exists pre,
        fst (main env)
        = pre ++ [MainLog LogReplyHeader; MainLog (LogReply s)]
  | None =>
      exists e,
        outcome (chat_with_stepfun_ai env sample_query) = Raise e /\
        exists pre, fst (main env) = pre ++ [MainLog (LogChatError e)]
  end.
Proof.
  unfold main.
  destruct (chat_with_stepfun_ai env sample_query) as [t [s|e]] eqn:Hc;
    cbn [fst snd outcome].
  - assert (Ho : outcome (chat_with_stepfun_ai env sample_query) = Ok s)
      by now rewrite Hc.
    destruct (chat_reply env sample_query s Ho)
      as [Hne [_ [_ [_ [pre Hev]]]]].
    split; [reflexivity|]. split; [exact Hne|]. split; [|now eexists].
    apply in_or_app. left. apply in_map.
    rewrite Hc in Hev. cbn [events fst] in Hev. rewrite Hev.
    apply in_or_app. right. now left.
  - exists e. split; [reflexivity | now eexists].
Qed.

(** X17: after a tick that stores the empty text (an empty region, a
    [None] text or a failed read), the next tick cannot complete the run,
    whatever it reads: the stored observation is empty and the comparison is
    not even made. *)
Theorem empty_read_delays_completion
  (page : Page) (i : nat) (prev : pystr) :
  stored_at page i = Some prev ->
  tk_wait (page i) = Ok tt ->
  read page i = [] ->
  stored_at page (S i) = Some [] /\
  forall r, outcome (loop_body page (S i) []) <> Ok (Return r).
Proof.
  intros Hst Hw Hr. split.
  - unfold stored_at in *. rewrite stored_after_snoc, Hst, Nat.add_0_r.
    rewrite (loop_body_eq _ _ _ Hw). cbn [outcome snd].
    now rewrite Hr, decide_empty.
  - intros r Hb.
    destruct (loop_body_return_inv _ _ _ _ Hb) as [_ [_ [_ [Hne Heq]]]].
    rewrite strip_nil in Heq. congruence.
Qed.

Lemma empty_read_delays_completion_witness :
  stored_at Samples.page_glitch 2 = Some [] /\
  outcome (loop_body Samples.page_glitch 2 [])
  <> Ok (Return (lit "partial")).
Proof.
  assert (Hst : stored_at Samples.page_glitch 1 = Some (lit "partial"))
    by (vm_compute; reflexivity).
  destruct (empty_read_delays_completion Samples.page_glitch 1
              (lit "partial") Hst) as [H1 H2].
  - reflexivity.
  - reflexivity.
  - split; [exact H1 | apply H2].
Defined.
